(** * A shallow embedding of tevador/mining-simulation (mining-simulation.cpp)

    Integer quantities ([BlockReward] = uint64_t, [Height] = uint_fast32_t)
    are modelled as [Z] with their wrap-around written out.  Doubles are
    modelled as Rocq's primitive IEEE-754 binary64 floats, so the code's
    floating-point computations evaluate exactly as in C++.  The Mersenne
    Twister and [uniform_real_distribution] are kept abstract: a generator
    state and a function drawing the next double from it. *)

From Stdlib Require Import ZArith Lia List Bool Permutation.
From Stdlib Require Import Floats.
From Stdlib Require Import Reals.
From Stdlib Require Import String.
Import ListNotations.

Open Scope Z_scope.
#[local] Set Warnings "-inexact-float".


(** ** Integer types *)

(** [uint64_t] values live in [0, 2^64). *)
Definition W64 : Z := 2 ^ 64.

(** [uint_fast32_t] is 64 bits wide on the LP64 Linux ABI the program is
    built for. *)
Definition HeightMod : Z := 2 ^ 64.

Definition u64 (z : Z) : Z := z mod W64.

(** ** Reward curve *)

(** [constexpr BlockReward moneySupply = UINT64_MAX;] *)
Definition moneySupply : Z := W64 - 1.

(** [(moneySupply - totalSupply) >> 18] on [uint64_t]. *)
Definition getBaseReward (totalSupply : Z) : Z :=
  Z.shiftr (u64 (moneySupply - totalSupply)) 18.

(** [constexpr BlockReward tailEmission = 0.6_xmr;]: the literal operator
    computes [0.6L * 1e12 + 0.5] and truncates it to [uint64_t]. *)
Definition tailEmission : Z := 600000000000.

(** [Network::getBlockReward] at the network's current supply. *)
Definition getBlockReward (supply : Z) : Z :=
  let reward := getBaseReward supply in
  if reward <? tailEmission then tailEmission else reward.

(** ** Conversions to [double] *)

(** An integer converted to [double] (round to nearest, ties to even), as
    the implicit [uint64_t] / [uint_fast32_t] / [size_t] to [double]
    conversions of the source do. *)
Definition toDouble (z : Z) : float :=
  SF2Prim (SpecFloat.binary_normalize 53 1024 z 0 false).

(** [constexpr double xmrUnit = 1e12;] *)
Definition xmrUnit : float := toDouble 1000000000000.

(** ** Blocks and pools *)

Module Block.
(** [minedBy_] is a pointer into the network's pool vector: its index,
    [None] for [nullptr]. *)
Record t := mk {
  minedBy_ : option nat;
  reward_ : Z;
  height_ : Z
}.
Definition getReward (b : t) : Z := reward_ b.
End Block.

(** [Block()]: the default-constructed block of the run loop. *)
Definition sentinelBlock : Block.t := Block.mk None (getBaseReward 0) 0.

Module Pool.
Record t := mk {
  name_ : string;
  hashrate_ : float;
  rewards_ : Z;
  blocks_ : Z
}.
(** [Pool(name, hashrate)]: the counters start at 0. *)
Definition create (name : string) (hashrate : float) : t :=
  mk name hashrate 0 0.
(** [Pool::addBlock]: [rewards_] is a [uint64_t], [blocks_] a [Height]. *)
Definition addBlock (b : Block.t) (p : t) : t :=
  mk (name_ p) (hashrate_ p) (u64 (rewards_ p + Block.getReward b))
     ((blocks_ p + 1) mod HeightMod).
End Pool.

(** [pools_[i]] replaced by [f pools_[i]]; indices out of range leave the
    list unchanged (mineBlock only uses indices of existing pools). *)
Fixpoint update_nth {A : Type} (i : nat) (f : A -> A) (l : list A) : list A :=
  match l, i with
  | [], _ => []
  | x :: l', O => f x :: l'
  | x :: l', S i' => x :: update_nth i' f l'
  end.

Module Network.
Record t (Generator : Type) := mk {
  height_ : Z;
  supply_ : Z;
  pools_ : list Pool.t;
  rng_ : Generator
}.
Arguments mk {Generator}.
Arguments height_ {Generator}.
Arguments supply_ {Generator}.
Arguments pools_ {Generator}.
Arguments rng_ {Generator}.
End Network.

(** The pool search loop of [Network::mineBlock]: [probe] accumulates the
    hashrates in vector order and the first pool with [probe >= pivot] is
    chosen. *)
Fixpoint selectPool (pivot probe : float) (pools : list Pool.t) (i : nat)
  : option nat :=
  match pools with
  | [] => None
  | p :: ps =>
      let probe' := (probe + Pool.hashrate_ p)%float in
      if (pivot <=? probe')%float then Some i
      else selectPool pivot probe' ps (S i)
  end.

(** [StatsSet::addValue] on the vector of values. *)
Definition addValue (value : float) (values : list float) : list float :=
  values ++ [value].

Module PoolStats.
(** The two [StatsSet]s are their value vectors ("blocks", "reward"). *)
Record t := mk {
  name_ : string;
  hashrate_ : float;
  blockCounts_ : list float;
  blockRewards_ : list float
}.
Definition getPool (ps : t) : Pool.t := Pool.create (name_ ps) (hashrate_ ps).
Definition accumulate (pool : Pool.t) (ps : t) : t :=
  mk (name_ ps) (hashrate_ ps)
     (addValue (toDouble (Pool.blocks_ pool)) (blockCounts_ ps))
     (addValue (toDouble (Pool.rewards_ pool) / xmrUnit)%float (blockRewards_ ps)).
End PoolStats.

Section Simulation.

(** The [mt19937] state and [distr_(rng_)]: one uniform double drawn from
    [0, 1) and the advanced generator state; [seedGen] is [rng_(seed)]. *)
Context {Generator : Type}.
Context (getDouble : Generator -> float * Generator).
Context (seedGen : Z -> Generator).

(** [Network::mineBlock]. *)
Definition mineBlock (net : Network.t Generator) : Block.t * Network.t Generator :=
  let '(pivot, rng') := getDouble (Network.rng_ net) in
  let pool := selectPool pivot 0%float (Network.pools_ net) 0 in
  let height' := (Network.height_ net + 1) mod HeightMod in
  let b := Block.mk pool (getBlockReward (Network.supply_ net)) height' in
  let supply' := u64 (Network.supply_ net + Block.getReward b) in
  let pools' :=
    match pool with
    | Some i => update_nth i (Pool.addBlock b) (Network.pools_ net)
    | None => Network.pools_ net
    end in
  (b, Network.mk height' supply' pools' rng').

(** The loop [for (Block b; b.getReward() > tailEmission; b = net.mineBlock())],
    run for at most [fuel] iterations.  It returns the last block [b], the
    network, and the blocks mined, in order. *)
Fixpoint loop (fuel : nat) (b : Block.t) (net : Network.t Generator)
  : Block.t * Network.t Generator * list Block.t :=
  match fuel with
  | O => (b, net, [])
  | S fuel' =>
      if tailEmission <? Block.getReward b then
        let '(b', net') := mineBlock net in
        let '(bl, nl, bs) := loop fuel' b' net' in
        (bl, nl, b' :: bs)
      else (b, net, [])
  end.

(** The loop has stopped: its condition fails on the last block. *)
Definition loopDone (b : Block.t) : bool :=
  negb (tailEmission <? Block.getReward b).

(** [Network net(seed, startingHeight, startingSupply, pools)]. *)
Definition initNetwork (seed : Z) (startingHeight startingSupply : Z)
  (pools : list Pool.t) : Network.t Generator :=
  Network.mk startingHeight startingSupply pools (seedGen seed).

(** [simulateUntilTailEmission], with at most [fuel] iterations of its
    loop; [None] when the fuel ran out before the loop stopped. *)
Definition simulateUntilTailEmission (fuel : nat) (stats : list PoolStats.t)
  (seed startingHeight startingSupply : Z) : option (list PoolStats.t) :=
  let pools := map PoolStats.getPool stats in
  let '(b, net, _) :=
    loop fuel sentinelBlock (initNetwork seed startingHeight startingSupply pools) in
  if loopDone b then
    Some (map (fun '(ps, p) => PoolStats.accumulate p ps)
              (combine stats (Network.pools_ net)))
  else None.

(** The seed loop of [main]: [simulateUntilTailEmission(pools, seed, ...)]
    for each seed in turn, threading the accumulated statistics; [None]
    when one of the runs ran out of fuel. *)
Fixpoint runSeeds (fuel : nat) (stats : list PoolStats.t) (seeds : list Z)
  (startingHeight startingSupply : Z) : option (list PoolStats.t) :=
  match seeds with
  | [] => Some stats
  | seed :: seeds' =>
      match simulateUntilTailEmission fuel stats seed startingHeight startingSupply with
      | Some stats' => runSeeds fuel stats' seeds' startingHeight startingSupply
      | None => None
      end
  end.

End Simulation.

(** [main]: the seeds [1..1000], the starting height and the two pools. *)
Definition mainSeeds : list Z := map Z.of_nat (seq 1 1000).

Definition mainStartingHeight : Z := 2082536.

Definition mainPools : list PoolStats.t :=
  [PoolStats.mk "A" 0.3%float [] []; PoolStats.mk "B" 0.003%float [] []].

(** ** Statistics *)

Section Stats.

(** The arithmetic the statistics are computed in: [double] in the
    program; instantiated below with binary64 floats and with the reals. *)
Context {D : Type} (zero : D) (add sub mul div : D -> D -> D)
  (sqrt : D -> D) (ofSize : nat -> D).

(** [StatsSet::printStats]: the printed mean and the printed [stddev]. *)
Definition printStats (values : list D) : D * D :=
  let sum := fold_left (fun s val => add s val) values zero in
  let mean := div sum (ofSize (List.length values)) in
  let varsum :=
    fold_left (fun s val => add s (mul (sub val mean) (sub val mean))) values zero in
  let var := div (div varsum (ofSize (List.length values))) (ofSize (List.length values)) in
  let stddev := sqrt var in
  (mean, stddev).

(** The spec's formula (4.4): [mean = (sum samples) / N] and
    [error = sqrt((sum (sample - mean)^2) / N) / N]. *)
Definition specStats (values : list D) : D * D :=
  let n := ofSize (List.length values) in
  let mean := div (fold_left add values zero) n in
  let varsum :=
    fold_left (fun s val => add s (mul (sub val mean) (sub val mean))) values zero in
  (mean, div (sqrt (div varsum n)) n).

End Stats.

(** The program's arithmetic: binary64. *)
Definition printStatsF : list float -> float * float :=
  printStats 0%float PrimFloat.add PrimFloat.sub PrimFloat.mul PrimFloat.div
    PrimFloat.sqrt (fun n => toDouble (Z.of_nat n)).

Definition specStatsF : list float -> float * float :=
  specStats 0%float PrimFloat.add PrimFloat.sub PrimFloat.mul PrimFloat.div
    PrimFloat.sqrt (fun n => toDouble (Z.of_nat n)).

(** The same computation in exact real arithmetic. *)
Definition printStatsR : list R -> R * R :=
  printStats 0%R Rplus Rminus Rmult Rdiv R_sqrt.sqrt INR.

(** * Proofs *)

(** ** Reward curve *)

Lemma u64_id (z : Z) : 0 <= z < W64 -> u64 z = z.
Proof. intros H. unfold u64. apply Z.mod_small. exact H. Qed.

Lemma u64_range (z : Z) : 0 <= u64 z < W64.
Proof. unfold u64, W64. apply Z.mod_pos_bound. lia. Qed.

Lemma getBaseReward_div (S : Z) :
  0 <= S <= moneySupply -> getBaseReward S = (moneySupply - S) / 2 ^ 18.
Proof.
  intros H. unfold getBaseReward.
  rewrite u64_id by (unfold moneySupply, W64 in *; lia).
  apply Z.shiftr_div_pow2. lia.
Qed.

Lemma getBaseReward_bounds (S : Z) :
  0 <= S <= moneySupply -> 0 <= getBaseReward S <= moneySupply - S.
Proof.
  intros H. rewrite getBaseReward_div by exact H.
  split.
  - apply Z.div_pos; lia.
  - apply Z.div_le_upper_bound; lia.
Qed.

Lemma getBlockReward_max (S : Z) :
  getBlockReward S = Z.max (getBaseReward S) tailEmission.
Proof.
  unfold getBlockReward. destruct (Z.ltb_spec (getBaseReward S) tailEmission); lia.
Qed.

Lemma getBlockReward_ge_tail (S : Z) : tailEmission <= getBlockReward S.
Proof. rewrite getBlockReward_max. lia. Qed.

Lemma getBaseReward_antimono (S S' : Z) :
  0 <= S -> S <= S' <= moneySupply -> getBaseReward S' <= getBaseReward S.
Proof.
  intros H0 H1.
  rewrite !getBaseReward_div by lia.
  apply Z.div_le_mono; lia.
Qed.

(** C2 *)
(** Claim C2: for every supply [S] with [0 <= S < C], the block reward is
    [max((C - S) >> 18, F)]; it is at least [F] and does not increase as the
    supply grows. *)
Theorem getBlockReward_curve (S : Z) (HS : 0 <= S < moneySupply) :
  getBlockReward S = Z.max (Z.shiftr (moneySupply - S) 18) tailEmission /\
  tailEmission <= getBlockReward S /\
  (forall S', S <= S' < moneySupply -> getBlockReward S' <= getBlockReward S).
Proof.
  split; [|split].
  - rewrite getBlockReward_max. unfold getBaseReward.
    rewrite u64_id by (unfold moneySupply, W64 in *; lia). reflexivity.
  - apply getBlockReward_ge_tail.
  - intros S' HS'. rewrite !getBlockReward_max.
    pose proof (getBaseReward_antimono S S' ltac:(lia) ltac:(lia)). lia.
Qed.

Lemma getBlockReward_curve_witness :
  (0 <= 17532973286521961314 < moneySupply) /\
  getBlockReward 17532973286521961314
  = Z.max (Z.shiftr (moneySupply - 17532973286521961314) 18) tailEmission /\
  tailEmission <= getBlockReward 17532973286521961314 /\
  (forall S', 17532973286521961314 <= S' < moneySupply ->
     getBlockReward S' <= getBlockReward 17532973286521961314).
Proof.
  assert (H : 0 <= 17532973286521961314 < moneySupply)
    by (unfold moneySupply, W64; lia).
  split; [exact H | exact (getBlockReward_curve 17532973286521961314 H)].
Defined.

(** C10 *)
(** Claim C10: [getBaseReward] is total on [uint64_t]: [moneySupply - S]
    never wraps for [0 <= S <= UINT64_MAX]; at [S = moneySupply] the base
    reward is 0 and [getBlockReward] returns exactly [tailEmission]. *)
Theorem getBaseReward_total (S : Z) (HS : 0 <= S < W64) :
  u64 (moneySupply - S) = moneySupply - S /\
  getBaseReward S = Z.shiftr (moneySupply - S) 18 /\
  getBaseReward moneySupply = 0 /\
  getBlockReward moneySupply = tailEmission.
Proof.
  split; [|split; [|split]].
  - apply u64_id. unfold moneySupply. lia.
  - unfold getBaseReward. rewrite u64_id by (unfold moneySupply; lia). reflexivity.
  - reflexivity.
  - reflexivity.
Qed.

Lemma getBaseReward_total_witness :
  (0 <= 12345 < W64) /\
  u64 (moneySupply - 12345) = moneySupply - 12345 /\
  getBaseReward 12345 = Z.shiftr (moneySupply - 12345) 18 /\
  getBaseReward moneySupply = 0 /\
  getBlockReward moneySupply = tailEmission.
Proof.
  assert (H : 0 <= 12345 < W64) by (unfold W64; lia).
  split; [exact H | exact (getBaseReward_total 12345 H)].
Defined.

(** ** One block: [Network::mineBlock] *)

(** A deterministic stand-in for [mt19937] used in the concrete examples:
    the state counts the draws and every draw is [d]. *)
Definition constGen (d : float) (n : nat) : float * nat := (d, S n).

Lemma mineBlock_eq {G : Type} (getDouble : G -> float * G)
  (net : Network.t G) (b : Block.t) (net' : Network.t G) :
  mineBlock getDouble net = (b, net') ->
  exists pivot g',
    getDouble (Network.rng_ net) = (pivot, g') /\
    b = Block.mk (selectPool pivot 0%float (Network.pools_ net) 0)
                 (getBlockReward (Network.supply_ net))
                 ((Network.height_ net + 1) mod HeightMod) /\
    net' = Network.mk ((Network.height_ net + 1) mod HeightMod)
                      (u64 (Network.supply_ net + getBlockReward (Network.supply_ net)))
                      (match selectPool pivot 0%float (Network.pools_ net) 0 with
                       | Some i => update_nth i (Pool.addBlock b) (Network.pools_ net)
                       | None => Network.pools_ net
                       end) g'.
Proof.
  unfold mineBlock. destruct (getDouble (Network.rng_ net)) as [pivot g'] eqn:E.
  intros Heq. injection Heq as <- <-. exists pivot, g'. auto.
Qed.

(** C3 *)
(** Counterexample to claim C3: at a supply within [F] of [UINT64_MAX]
    (here [supply = UINT64_MAX]) the [uint64_t] addition [supply_ += reward]
    wraps, so the supply does not grow by the block's reward. *)
Lemma mineBlock_supply_wraps :
  (Network.supply_ (snd (mineBlock (constGen 0.5%float) (Network.mk 0 moneySupply [] 0%nat)))
   <> moneySupply
      + Block.getReward (fst (mineBlock (constGen 0.5%float) (Network.mk 0 moneySupply [] 0%nat))))
  /\
  (Network.supply_ (snd (mineBlock (constGen 0.5%float) (Network.mk 0 moneySupply [] 0%nat)))
   = tailEmission - 1).
Proof. vm_compute. split; [discriminate | reflexivity]. Qed.

(** Claim C3, amended: when [supply + getBlockReward supply] fits in
    [uint64_t] and the height is below the [Height] maximum, [mineBlock]
    returns a block whose reward is [getBlockReward] of the supply before the
    call, the height grows by exactly 1 and the supply by exactly that
    reward. *)
Theorem mineBlock_advance {G : Type} (getDouble : G -> float * G)
  (net : Network.t G) (b : Block.t) (net' : Network.t G)
  (Hs : 0 <= Network.supply_ net /\
        Network.supply_ net + getBlockReward (Network.supply_ net) <= moneySupply)
  (Hh : 0 <= Network.height_ net < HeightMod - 1)
  (Hm : mineBlock getDouble net = (b, net')) :
  Block.getReward b = getBlockReward (Network.supply_ net) /\
  Block.height_ b = Network.height_ net + 1 /\
  Network.height_ net' = Network.height_ net + 1 /\
  Network.supply_ net' = Network.supply_ net + Block.getReward b.
Proof.
  destruct (mineBlock_eq getDouble net b net' Hm) as (pivot & g' & _ & -> & ->).
  cbn [Block.getReward Block.reward_ Block.height_ Network.height_ Network.supply_].
  pose proof (getBlockReward_ge_tail (Network.supply_ net)).
  rewrite Z.mod_small by lia.
  rewrite u64_id by (unfold tailEmission, moneySupply in *; lia).
  repeat split; reflexivity.
Qed.

Lemma mineBlock_advance_witness :
  exists b net',
    mineBlock (constGen 0.25%float) (Network.mk 2082536 17532973286521961314 [] 0%nat)
    = (b, net') /\
    Block.getReward b = getBlockReward 17532973286521961314 /\
    Block.height_ b = 2082536 + 1 /\
    Network.height_ net' = 2082536 + 1 /\
    Network.supply_ net' = 17532973286521961314 + Block.getReward b.
Proof.
  destruct (mineBlock (constGen 0.25%float) (Network.mk 2082536 17532973286521961314 [] 0%nat))
    as [b net'] eqn:E.
  exists b, net'. split; [reflexivity|].
  assert (Hs : 0 <= Network.supply_ (Network.mk 2082536 17532973286521961314 [] 0%nat) /\
    Network.supply_ (Network.mk 2082536 17532973286521961314 [] 0%nat)
    + getBlockReward (Network.supply_ (Network.mk 2082536 17532973286521961314 [] 0%nat))
    <= moneySupply) by (vm_compute; split; discriminate).
  assert (Hh : 0 <= Network.height_ (Network.mk 2082536 17532973286521961314 [] 0%nat)
    < HeightMod - 1) by (vm_compute; split; [discriminate | reflexivity]).
  exact (mineBlock_advance (constGen 0.25%float)
           (Network.mk 2082536 17532973286521961314 [] 0%nat) b net' Hs Hh E).
Defined.

(** ** Pool selection *)

(** The successive values of [probe] in the search loop. *)
Fixpoint probes (probe : float) (pools : list Pool.t) : list float :=
  match pools with
  | [] => []
  | p :: ps =>
      let probe' := (probe + Pool.hashrate_ p)%float in
      probe' :: probes probe' ps
  end.

(** [i] is the first position whose running sum reaches the pivot. *)
Definition firstReaching (pivot : float) (prs : list float) (i : nat) : Prop :=
  (exists pr, nth_error prs i = Some pr /\ (pivot <=? pr)%float = true) /\
  (forall j pj, (j < i)%nat -> nth_error prs j = Some pj -> (pivot <=? pj)%float = false).

Definition noneReaching (pivot : float) (prs : list float) : Prop :=
  forall pj, In pj prs -> (pivot <=? pj)%float = false.

Lemma selectPool_spec (pivot probe : float) (pools : list Pool.t) (k : nat) :
  match selectPool pivot probe pools k with
  | Some i => (k <= i)%nat /\ firstReaching pivot (probes probe pools) (i - k)
  | None => noneReaching pivot (probes probe pools)
  end.
Proof.
  revert probe k. induction pools as [|p ps IH]; intros probe k; cbn.
  - intros pj [].
  - destruct (pivot <=? probe + Pool.hashrate_ p)%float eqn:E.
    + split; [lia|]. rewrite Nat.sub_diag. split.
      * exists (probe + Pool.hashrate_ p)%float. auto.
      * intros j pj Hj. lia.
    + specialize (IH (probe + Pool.hashrate_ p)%float (S k)).
      destruct (selectPool pivot (probe + Pool.hashrate_ p)%float ps (S k)) as [i|].
      * destruct IH as [Hk [[pr [Hpr Hle]] Hbefore]].
        split; [lia|]. replace (i - k)%nat with (S (i - S k)) by lia. split.
        -- exists pr. auto.
        -- intros [|j] pj Hj Hn; cbn in Hn.
           ++ injection Hn as <-. exact E.
           ++ apply (Hbefore j pj); [lia | exact Hn].
      * intros pj [<- | Hin]; [exact E | apply IH, Hin].
Qed.

Lemma firstReaching_unique (pivot : float) (prs : list float) (i i' : nat) :
  firstReaching pivot prs i -> firstReaching pivot prs i' -> i = i'.
Proof.
  intros [[pr [Hpr Hle]] Hb] [[pr' [Hpr' Hle']] Hb'].
  destruct (Nat.lt_trichotomy i i') as [Hlt | [Heq | Hgt]]; [| exact Heq |].
  - rewrite (Hb' i pr Hlt Hpr) in Hle. discriminate.
  - rewrite (Hb i' pr' Hgt Hpr') in Hle'. discriminate.
Qed.

Lemma firstReaching_not_none (pivot : float) (prs : list float) (i : nat) :
  firstReaching pivot prs i -> ~ noneReaching pivot prs.
Proof.
  intros [[pr [Hpr Hle]] _] Hnone.
  rewrite (Hnone pr (nth_error_In _ _ Hpr)) in Hle. discriminate.
Qed.

(** IEEE equality implies IEEE [<=]: a running sum equal to the pivot
    reaches it. *)
Lemma float_eqb_leb (x y : float) : (x =? y)%float = true -> (x <=? y)%float = true.
Proof.
  rewrite FloatAxioms.eqb_spec, FloatAxioms.leb_spec. unfold SFeqb, SFleb.
  destruct (SFcompare (Prim2SF x) (Prim2SF y)) as [[| |]|]; auto.
Qed.

(** C4 *)
(** Claim C4: the block goes to the first pool, in vector order, whose
    running hashrate sum [probe] satisfies [probe >= pivot] (so a sum equal
    to the pivot selects the pool being evaluated); when no running sum
    reaches the pivot the block has no pool and no pool's ledger changes;
    otherwise only the winner's ledger receives the block. *)
Theorem mineBlock_winner {G : Type} (getDouble : G -> float * G)
  (net : Network.t G) (b : Block.t) (net' : Network.t G) (pivot : float) (g' : G)
  (Hd : getDouble (Network.rng_ net) = (pivot, g'))
  (Hm : mineBlock getDouble net = (b, net')) :
  let prs := probes 0%float (Network.pools_ net) in
  (forall i, Block.minedBy_ b = Some i <-> firstReaching pivot prs i) /\
  (forall i pr, nth_error prs i = Some pr -> (pivot =? pr)%float = true ->
     (forall j pj, (j < i)%nat -> nth_error prs j = Some pj ->
        (pivot <=? pj)%float = false) ->
     Block.minedBy_ b = Some i) /\
  (Block.minedBy_ b = None <-> noneReaching pivot prs) /\
  (Block.minedBy_ b = None -> Network.pools_ net' = Network.pools_ net) /\
  (forall i, Block.minedBy_ b = Some i ->
     Network.pools_ net' = update_nth i (Pool.addBlock b) (Network.pools_ net)).
Proof.
  intros prs.
  destruct (mineBlock_eq getDouble net b net' Hm) as (pv & g'' & Hd' & Hb & Hn).
  rewrite Hd in Hd'. injection Hd' as <- <-.
  pose proof (selectPool_spec pivot 0%float (Network.pools_ net) 0) as Hspec.
  assert (Hsel : Block.minedBy_ b = selectPool pivot 0%float (Network.pools_ net) 0)
    by (rewrite Hb; reflexivity).
  assert (Hiff : forall i, Block.minedBy_ b = Some i <-> firstReaching pivot prs i).
  { intros i. rewrite Hsel. split.
    - intros Hs. rewrite Hs in Hspec. destruct Hspec as [_ Hf].
      rewrite Nat.sub_0_r in Hf. exact Hf.
    - intros Hf. destruct (selectPool pivot 0%float (Network.pools_ net) 0) as [i'|].
      + destruct Hspec as [_ Hf']. rewrite Nat.sub_0_r in Hf'.
        f_equal. exact (firstReaching_unique _ _ _ _ Hf' Hf).
      + exfalso. exact (firstReaching_not_none _ _ _ Hf Hspec). }
  split; [exact Hiff | split; [| split; [| split]]].
  - intros i pr Hpr Heq Hbefore. apply Hiff. split; [|exact Hbefore].
    exists pr. split; [exact Hpr | apply float_eqb_leb, Heq].
  - rewrite Hsel. split.
    + intros Hs. rewrite Hs in Hspec. exact Hspec.
    + intros Hnone. destruct (selectPool pivot 0%float (Network.pools_ net) 0) as [i'|];
        [|reflexivity].
      exfalso. destruct Hspec as [_ Hf']. rewrite Nat.sub_0_r in Hf'.
      exact (firstReaching_not_none _ _ _ Hf' Hnone).
  - intros Hs. rewrite Hn. cbn. rewrite <- Hsel, Hs. reflexivity.
  - intros i Hs. rewrite Hn. cbn. rewrite <- Hsel, Hs. reflexivity.
Qed.

(** The program's configuration: pools of hashrate 0.3 and 0.003. *)
Definition examplePools : list Pool.t :=
  [Pool.create "A" 0.3%float; Pool.create "B" 0.003%float].

(** A draw of exactly 0.3 ties with the first running sum and goes to "A". *)
Lemma mineBlock_winner_witness :
  exists b net',
    mineBlock (constGen 0.3%float) (Network.mk 2082536 17532973286521961314 examplePools 0%nat)
    = (b, net') /\
    Block.minedBy_ b = Some 0%nat /\
    Network.pools_ net' = update_nth 0 (Pool.addBlock b) examplePools.
Proof.
  destruct (mineBlock (constGen 0.3%float)
              (Network.mk 2082536 17532973286521961314 examplePools 0%nat))
    as [b net'] eqn:E.
  exists b, net'. split; [reflexivity|].
  destruct (mineBlock_winner (constGen 0.3%float)
              (Network.mk 2082536 17532973286521961314 examplePools 0%nat)
              b net' 0.3%float 1%nat eq_refl E) as (_ & Htie & _ & _ & Hupd).
  assert (Hw : Block.minedBy_ b = Some 0%nat).
  { apply (Htie 0%nat 0.3%float); [vm_compute; reflexivity | vm_compute; reflexivity |].
    intros j pj Hj. lia. }
  split; [exact Hw | exact (Hupd 0%nat Hw)].
Defined.

(** ** The run loop *)

Definition sumRewards (bs : list Block.t) : Z :=
  fold_right (fun b acc => Block.getReward b + acc) 0 bs.

(** The reward of the blocks that no tracked pool won. *)
Definition residualRewards (bs : list Block.t) : Z :=
  fold_right (fun b acc =>
    match Block.minedBy_ b with None => Block.getReward b + acc | Some _ => acc end) 0 bs.

Definition sumPoolRewards (pools : list Pool.t) : Z :=
  fold_right (fun p acc => Pool.rewards_ p + acc) 0 pools.

(** The loop invariant: the supply is a [uint64_t] value, and when the loop
    is about to mine, the supply is at least [F] below the ceiling. *)
Definition supplyInv (b : Block.t) (S : Z) : Prop :=
  0 <= S <= moneySupply /\
  (tailEmission < Block.getReward b -> tailEmission <= moneySupply - S).

Lemma loop_stop {G : Type} (getDouble : G -> float * G) (fuel : nat)
  (b : Block.t) (net : Network.t G) :
  Block.getReward b <= tailEmission -> loop getDouble fuel b net = (b, net, []).
Proof.
  intros H. destruct fuel; cbn; [reflexivity|].
  destruct (Z.ltb_spec tailEmission (Block.getReward b)); [lia | reflexivity].
Qed.

Lemma loop_step {G : Type} (getDouble : G -> float * G) (fuel : nat)
  (b : Block.t) (net : Network.t G) :
  tailEmission < Block.getReward b ->
  loop getDouble (S fuel) b net =
  let '(b', net') := mineBlock getDouble net in
  let '(bl, nl, bs) := loop getDouble fuel b' net' in (bl, nl, b' :: bs).
Proof.
  intros H. cbn. destruct (Z.ltb_spec tailEmission (Block.getReward b)); [reflexivity | lia].
Qed.

Lemma mineBlock_reward {G : Type} (getDouble : G -> float * G)
  (net : Network.t G) (b : Block.t) (net' : Network.t G) :
  mineBlock getDouble net = (b, net') ->
  Block.getReward b = getBlockReward (Network.supply_ net) /\
  Network.supply_ net' = u64 (Network.supply_ net + Block.getReward b).
Proof.
  intros Hm. destruct (mineBlock_eq getDouble net b net' Hm) as (? & ? & _ & -> & ->).
  split; reflexivity.
Qed.

(** A reward above the floor is the base reward, which leaves at least [F]
    below the ceiling. *)
Lemma base_step_room (S : Z) :
  0 <= S <= moneySupply -> tailEmission < getBlockReward S ->
  getBlockReward S = getBaseReward S /\
  tailEmission <= moneySupply - (S + getBlockReward S).
Proof.
  intros HS Hgt. rewrite getBlockReward_max in *.
  assert (Hb : Z.max (getBaseReward S) tailEmission = getBaseReward S) by lia.
  rewrite Hb in *. split; [reflexivity|].
  rewrite getBaseReward_div in * by exact HS.
  pose proof (Z.mul_div_le (moneySupply - S) (2 ^ 18) ltac:(lia)).
  change (2 ^ 18) with 262144 in *. lia.
Qed.

Lemma mineBlock_supplyInv {G : Type} (getDouble : G -> float * G)
  (net : Network.t G) (b' : Block.t) (net' : Network.t G) :
  0 <= Network.supply_ net <= moneySupply ->
  tailEmission <= moneySupply - Network.supply_ net ->
  mineBlock getDouble net = (b', net') ->
  Network.supply_ net' = Network.supply_ net + Block.getReward b' /\
  supplyInv b' (Network.supply_ net').
Proof.
  intros HS Hroom Hm. destruct (mineBlock_reward getDouble net b' net' Hm) as [Hr Hs].
  set (S := Network.supply_ net) in *.
  pose proof (getBaseReward_bounds S HS).
  pose proof (getBlockReward_max S).
  assert (Hle : S + Block.getReward b' <= moneySupply) by lia.
  assert (Heq : Network.supply_ net' = S + Block.getReward b')
    by (rewrite Hs; apply u64_id; unfold moneySupply in *; unfold tailEmission in *; lia).
  split; [exact Heq|]. split; [lia|].
  intros Hgt. rewrite Heq, Hr. rewrite Hr in Hgt.
  exact (proj2 (base_step_room S HS Hgt)).
Qed.

Lemma loop_supplyInv {G : Type} (getDouble : G -> float * G) (fuel : nat) :
  forall (b : Block.t) (net : Network.t G) bl nl bs,
  supplyInv b (Network.supply_ net) ->
  loop getDouble fuel b net = (bl, nl, bs) ->
  Network.supply_ nl = Network.supply_ net + sumRewards bs /\
  supplyInv bl (Network.supply_ nl).
Proof.
  induction fuel as [|fuel IH]; intros b net bl nl bs Hinv Hl.
  - cbn in Hl. injection Hl as <- <- <-. cbn. split; [lia | exact Hinv].
  - destruct (Z.ltb_spec tailEmission (Block.getReward b)) as [Hgt | Hle].
    + rewrite loop_step in Hl by exact Hgt.
      destruct (mineBlock getDouble net) as [b' net'] eqn:Hm.
      destruct (loop getDouble fuel b' net') as [[bl' nl'] bs'] eqn:Hl'.
      injection Hl as <- <- <-.
      destruct Hinv as [HS Hroom].
      destruct (mineBlock_supplyInv getDouble net b' net' HS (Hroom Hgt) Hm) as [Hs Hinv'].
      destruct (IH b' net' bl' nl' bs' Hinv' Hl') as [Hs' Hinv''].
      change (sumRewards (b' :: bs')) with (Block.getReward b' + sumRewards bs').
      split; [lia | exact Hinv''].
    + rewrite loop_stop in Hl by exact Hle. injection Hl as <- <- <-.
      cbn. split; [lia | exact Hinv].
Qed.

Lemma loop_trace {G : Type} (getDouble : G -> float * G) (fuel : nat) :
  forall (b : Block.t) (net : Network.t G) bl nl bs,
  tailEmission < Block.getReward b ->
  loop getDouble fuel b net = (bl, nl, bs) ->
  loopDone bl = true ->
  exists pre, bs = pre ++ [bl] /\
    Forall (fun x => tailEmission < Block.getReward x) pre /\
    Block.getReward bl <= tailEmission.
Proof.
  unfold loopDone.
  induction fuel as [|fuel IH]; intros b net bl nl bs Hgt Hl Hd.
  - cbn in Hl. injection Hl as <- <- <-.
    destruct (Z.ltb_spec tailEmission (Block.getReward b)); [discriminate | lia].
  - rewrite loop_step in Hl by exact Hgt.
    destruct (mineBlock getDouble net) as [b' net'] eqn:Hm.
    destruct (loop getDouble fuel b' net') as [[bl' nl'] bs'] eqn:Hl'.
    injection Hl as <- <- <-.
    destruct (Z.ltb_spec tailEmission (Block.getReward b')) as [Hgt' | Hle'].
    + destruct (IH b' net' bl' nl' bs' Hgt' Hl' Hd) as (pre & -> & Hpre & Hlast).
      exists (b' :: pre). split; [reflexivity|]. split; [constructor; assumption | exact Hlast].
    + rewrite loop_stop in Hl' by exact Hle'. injection Hl' as <- <- <-.
      exists []. split; [reflexivity|]. split; [constructor | exact Hle'].
Qed.

(** C5 *)
(** Claim C5: the loop starts from the default block, whose reward is the
    reward curve at zero supply and lies above [F]; whenever the loop has
    stopped, it mined at least one block, the last block mined is the one
    the loop stopped on, its reward is [<= F], and every earlier mined block
    had a reward above [F]. *)
Theorem run_stops_at_first_floor_block :
  (Block.getReward sentinelBlock = getBaseReward 0 /\
   getBaseReward 0 = getBlockReward 0 /\
   tailEmission < getBlockReward 0) /\
  (forall (G : Type) (getDouble : G -> float * G) (seedGen : Z -> G)
     (fuel : nat) (seed startingHeight startingSupply : Z) (pools : list Pool.t)
     (bl : Block.t) (nl : Network.t G) (bs : list Block.t),
   loop getDouble fuel sentinelBlock
     (initNetwork seedGen seed startingHeight startingSupply pools) = (bl, nl, bs) ->
   loopDone bl = true ->
   exists pre, bs = pre ++ [bl] /\
     Forall (fun x => tailEmission < Block.getReward x) pre /\
     Block.getReward bl <= tailEmission).
Proof.
  split.
  - split; [reflexivity | split; vm_compute; reflexivity].
  - intros G getDouble seedGen fuel seed h s pools bl nl bs Hl Hd.
    apply (loop_trace getDouble fuel sentinelBlock (initNetwork seedGen seed h s pools)
             bl nl bs); [| exact Hl | exact Hd].
    vm_compute. reflexivity.
Qed.

Lemma run_stops_at_first_floor_block_witness :
  exists bl nl bs,
    loop (constGen 0.25%float) 3%nat sentinelBlock
      (initNetwork (fun _ => 0%nat) 1 2082536 (moneySupply - 1000) examplePools)
    = (bl, nl, bs) /\
    loopDone bl = true /\
    exists pre, bs = pre ++ [bl] /\
      Forall (fun x => tailEmission < Block.getReward x) pre /\
      Block.getReward bl <= tailEmission.
Proof.
  destruct (loop (constGen 0.25%float) 3%nat sentinelBlock
              (initNetwork (fun _ => 0%nat) 1 2082536 (moneySupply - 1000) examplePools))
    as [[bl nl] bs] eqn:E.
  assert (Hd : loopDone bl = true).
  { vm_compute in E. injection E as <- <- <-. vm_compute. reflexivity. }
  exists bl, nl, bs. split; [reflexivity | split; [exact Hd|]].
  exact (proj2 run_stops_at_first_floor_block nat (constGen 0.25%float) (fun _ => 0%nat)
           3%nat 1 2082536 (moneySupply - 1000) examplePools bl nl bs E Hd).
Defined.

(** Each iteration that does not stop the loop mines a base reward of at
    least [F + 1] without wrapping, so [moneySupply - supply] decreases. *)
Lemma loop_terminates {G : Type} (getDouble : G -> float * G) (n : nat) :
  forall (b : Block.t) (net : Network.t G),
  0 <= Network.supply_ net <= moneySupply ->
  moneySupply - Network.supply_ net < Z.of_nat n ->
  exists fuel, loopDone (fst (fst (loop getDouble fuel b net))) = true.
Proof.
  unfold loopDone.
  induction n as [|n IH]; intros b net HS Hn; [lia|].
  destruct (Z.ltb_spec tailEmission (Block.getReward b)) as [Hgt | Hle].
  2:{ exists 0%nat. cbn. destruct (Z.ltb_spec tailEmission (Block.getReward b)); [lia | reflexivity]. }
  destruct (mineBlock getDouble net) as [b' net'] eqn:Hm.
  destruct (mineBlock_reward getDouble net b' net' Hm) as [Hr Hs].
  destruct (Z.ltb_spec tailEmission (Block.getReward b')) as [Hgt' | Hle'].
  - rewrite Hr in Hgt'.
    destruct (base_step_room _ HS Hgt') as [_ Hroom].
    rewrite <- Hr in Hroom.
    assert (Hs' : Network.supply_ net' = Network.supply_ net + Block.getReward b')
      by (rewrite Hs; apply u64_id; unfold moneySupply, tailEmission in *; lia).
    destruct (IH b' net') as [fuel Hf];
      [unfold tailEmission in *; lia | unfold tailEmission in *; lia |].
    exists (S fuel). rewrite loop_step by exact Hgt. rewrite Hm.
    destruct (loop getDouble fuel b' net') as [[bl nl] bs]. exact Hf.
  - exists 1%nat. rewrite loop_step by exact Hgt. rewrite Hm.
    rewrite loop_stop by exact Hle'. cbn.
    destruct (Z.ltb_spec tailEmission (Block.getReward b')); [lia | reflexivity].
Qed.

(** C6 *)
(** Claim C6: for every generator, seed, starting height and [uint64_t]
    starting supply, [simulateUntilTailEmission] finishes after finitely many
    iterations of its loop ([F = tailEmission > 0]). *)
Theorem simulate_terminates {G : Type} (getDouble : G -> float * G)
  (seedGen : Z -> G) (stats : list PoolStats.t)
  (seed startingHeight startingSupply : Z)
  (HS : 0 <= startingSupply < W64) :
  0 < tailEmission /\
  exists fuel stats',
    simulateUntilTailEmission getDouble seedGen fuel stats seed startingHeight
      startingSupply = Some stats'.
Proof.
  split; [unfold tailEmission; lia|].
  destruct (loop_terminates getDouble (S (Z.to_nat (moneySupply - startingSupply)))
              sentinelBlock
              (initNetwork seedGen seed startingHeight startingSupply
                 (map PoolStats.getPool stats)))
    as [fuel Hf];
    [ cbn [Network.supply_ initNetwork]; unfold moneySupply; lia
    | cbn [Network.supply_ initNetwork];
      rewrite Nat2Z.inj_succ, Z2Nat.id by (unfold moneySupply, W64 in *; lia); lia
    |].
  exists fuel. unfold simulateUntilTailEmission.
  destruct (loop getDouble fuel sentinelBlock _) as [[bl nl] bs]. cbn in Hf.
  rewrite Hf. eexists. reflexivity.
Qed.

Lemma simulate_terminates_witness :
  0 <= 17532973286521961314 < W64 /\
  0 < tailEmission /\
  exists fuel stats',
    simulateUntilTailEmission (constGen 0.5%float) (fun _ => 0%nat) fuel
      [PoolStats.mk "A" 0.3%float [] []] 1 2082536 17532973286521961314 = Some stats'.
Proof.
  assert (H : 0 <= 17532973286521961314 < W64) by (unfold W64; lia).
  split; [exact H|].
  exact (simulate_terminates (constGen 0.5%float) (fun _ => 0%nat)
           [PoolStats.mk "A" 0.3%float [] []] 1 2082536 17532973286521961314 H).
Defined.

(** C7 *)
(** Counterexample to claim C7: a run starting one unit below the ceiling
    (a starting supply below [C]) mines one block at the floor reward [F],
    and [supply_ += reward] wraps: the exact sum exceeds [UINT64_MAX] and the
    stored supply drops to [F - 2]. *)
Definition nearCeilingRun : Block.t * Network.t nat * list Block.t :=
  loop (constGen 0.5%float) 10 sentinelBlock
    (initNetwork (fun _ : Z => 0%nat) 1 2082536 (moneySupply - 1)
       (map PoolStats.getPool [PoolStats.mk "A" 0.3%float [] []])).

Lemma run_supply_overflows :
  snd nearCeilingRun = [fst (fst nearCeilingRun)] /\
  loopDone (fst (fst nearCeilingRun)) = true /\
  (moneySupply - 1) + sumRewards (snd nearCeilingRun) > moneySupply /\
  Network.supply_ (snd (fst nearCeilingRun)) = tailEmission - 2.
Proof. vm_compute. repeat split; reflexivity. Qed.

(** Claim C7, amended: for a run whose starting supply [S0] is at most
    [C - F], at every point of the run the supply equals [S0] plus the
    rewards of the blocks mined so far and stays at most [C], so no
    [supply_ += reward] wraps; nothing clamps the supply, the bound comes
    from the reward curve. *)
Theorem run_supply_bounded {G : Type} (getDouble : G -> float * G)
  (seedGen : Z -> G) (fuel : nat) (seed startingHeight startingSupply : Z)
  (pools : list Pool.t) (bl : Block.t) (nl : Network.t G) (bs : list Block.t)
  (HS : 0 <= startingSupply /\ startingSupply + tailEmission <= moneySupply)
  (Hl : loop getDouble fuel sentinelBlock
          (initNetwork seedGen seed startingHeight startingSupply pools) = (bl, nl, bs)) :
  Network.supply_ nl = startingSupply + sumRewards bs /\
  Network.supply_ nl <= moneySupply.
Proof.
  assert (Hinv : supplyInv sentinelBlock
                   (Network.supply_ (initNetwork seedGen seed startingHeight
                                       startingSupply pools)))
    by (cbn; split; [unfold tailEmission in *; lia | intros _; lia]).
  destruct (loop_supplyInv getDouble fuel _ _ bl nl bs Hinv Hl) as [Hs [HS' _]].
  cbn in Hs. split; [exact Hs | lia].
Qed.

Lemma run_supply_bounded_witness :
  exists bl nl bs,
    loop (constGen 0.25%float) 5%nat sentinelBlock
      (initNetwork (fun _ => 0%nat) 1 2082536 17532973286521961314 examplePools)
    = (bl, nl, bs) /\
    Network.supply_ nl = 17532973286521961314 + sumRewards bs /\
    Network.supply_ nl <= moneySupply.
Proof.
  destruct (loop (constGen 0.25%float) 5%nat sentinelBlock
              (initNetwork (fun _ => 0%nat) 1 2082536 17532973286521961314 examplePools))
    as [[bl nl] bs] eqn:E.
  assert (HS : 0 <= 17532973286521961314 /\ 17532973286521961314 + tailEmission <= moneySupply)
    by (unfold tailEmission, moneySupply, W64; lia).
  exists bl, nl, bs. split; [reflexivity|].
  exact (run_supply_bounded (constGen 0.25%float) (fun _ => 0%nat) 5%nat 1 2082536
           17532973286521961314 examplePools bl nl bs HS E).
Defined.

(** ** Pool ledgers *)

Definition rewardsNonneg (pools : list Pool.t) : Prop :=
  Forall (fun p => 0 <= Pool.rewards_ p) pools.

Lemma selectPool_lt (pivot probe : float) (pools : list Pool.t) (k i : nat) :
  selectPool pivot probe pools k = Some i -> (k <= i < k + List.length pools)%nat.
Proof.
  revert probe k. induction pools as [|p ps IH]; intros probe k; cbn; [discriminate|].
  destruct (pivot <=? probe + Pool.hashrate_ p)%float.
  - intros H. injection H as <-. lia.
  - intros H. specialize (IH _ _ H). lia.
Qed.

Lemma sumPoolRewards_cons (p : Pool.t) (l : list Pool.t) :
  sumPoolRewards (p :: l) = Pool.rewards_ p + sumPoolRewards l.
Proof. reflexivity. Qed.

Lemma sumPoolRewards_nonneg (l : list Pool.t) :
  rewardsNonneg l -> 0 <= sumPoolRewards l.
Proof.
  induction 1 as [|q l Hq _ IH]; [reflexivity|].
  rewrite sumPoolRewards_cons. lia.
Qed.

Lemma update_addBlock_sum (b : Block.t) (l : list Pool.t) (i : nat) :
  rewardsNonneg l -> (i < List.length l)%nat -> 0 <= Block.getReward b ->
  sumPoolRewards l + Block.getReward b < W64 ->
  sumPoolRewards (update_nth i (Pool.addBlock b) l) = sumPoolRewards l + Block.getReward b.
Proof.
  revert i. induction l as [|p l IH]; intros i Hn Hi Hr Hlt; cbn in Hi; [lia|].
  inversion Hn as [|? ? Hp Hl]; subst.
  pose proof (sumPoolRewards_nonneg l Hl).
  rewrite sumPoolRewards_cons in *.
  destruct i as [|i]; cbn [update_nth]; rewrite sumPoolRewards_cons.
  - cbn [Pool.addBlock Pool.rewards_]. rewrite u64_id by lia. lia.
  - rewrite IH by (auto; lia). lia.
Qed.

Lemma update_addBlock_nonneg (b : Block.t) (l : list Pool.t) (i : nat) :
  rewardsNonneg l -> rewardsNonneg (update_nth i (Pool.addBlock b) l).
Proof.
  revert i. induction l as [|p l IH]; intros i Hn; [destruct i; constructor|].
  inversion Hn as [|? ? Hp Hl]; subst.
  destruct i as [|i]; cbn [update_nth]; constructor.
  - cbn. apply u64_range.
  - exact Hl.
  - exact Hp.
  - exact (IH i Hl).
Qed.

Lemma mineBlock_pools {G : Type} (getDouble : G -> float * G)
  (net : Network.t G) (b : Block.t) (net' : Network.t G) :
  rewardsNonneg (Network.pools_ net) ->
  mineBlock getDouble net = (b, net') ->
  sumPoolRewards (Network.pools_ net) + Block.getReward b < W64 ->
  sumPoolRewards (Network.pools_ net') + residualRewards [b]
  = sumPoolRewards (Network.pools_ net) + Block.getReward b /\
  rewardsNonneg (Network.pools_ net').
Proof.
  intros Hn Hm Hlt.
  pose proof (getBlockReward_ge_tail (Network.supply_ net)) as Hge.
  destruct (mineBlock_eq getDouble net b net' Hm) as (pivot & g' & _ & Hb & Hn').
  assert (Hr : Block.getReward b = getBlockReward (Network.supply_ net)) by (rewrite Hb; reflexivity).
  assert (Hsel : Block.minedBy_ b = selectPool pivot 0%float (Network.pools_ net) 0)
    by (rewrite Hb; reflexivity).
  rewrite Hn'. cbn [Network.pools_]. unfold residualRewards, fold_right.
  rewrite <- Hsel in *. rewrite Hsel.
  destruct (selectPool pivot 0%float (Network.pools_ net) 0) as [i|] eqn:Hs.
  - pose proof (selectPool_lt _ _ _ _ _ Hs).
    split; [| apply update_addBlock_nonneg, Hn].
    rewrite update_addBlock_sum by (auto; unfold tailEmission in *; lia). lia.
  - split; [lia | exact Hn].
Qed.

Lemma loop_rewards_ge {G : Type} (getDouble : G -> float * G) (fuel : nat) :
  forall (b : Block.t) (net : Network.t G) bl nl bs,
  loop getDouble fuel b net = (bl, nl, bs) ->
  Forall (fun x => tailEmission <= Block.getReward x) bs.
Proof.
  induction fuel as [|fuel IH]; intros b net bl nl bs Hl.
  - cbn in Hl. injection Hl as <- <- <-. constructor.
  - destruct (Z.ltb_spec tailEmission (Block.getReward b)) as [Hgt | Hle].
    + rewrite loop_step in Hl by exact Hgt.
      destruct (mineBlock getDouble net) as [b' net'] eqn:Hm.
      destruct (loop getDouble fuel b' net') as [[bl' nl'] bs'] eqn:Hl'.
      injection Hl as <- <- <-. constructor; [| exact (IH _ _ _ _ _ Hl')].
      rewrite (proj1 (mineBlock_reward getDouble net b' net' Hm)).
      apply getBlockReward_ge_tail.
    + rewrite loop_stop in Hl by exact Hle. injection Hl as <- <- <-. constructor.
Qed.

Lemma sumRewards_nonneg (bs : list Block.t) :
  Forall (fun x => tailEmission <= Block.getReward x) bs -> 0 <= sumRewards bs.
Proof.
  induction 1 as [|x l Hx _ IH]; [cbn; lia|].
  change (sumRewards (x :: l)) with (Block.getReward x + sumRewards l).
  unfold tailEmission in Hx. lia.
Qed.

Lemma loop_pools {G : Type} (getDouble : G -> float * G) (fuel : nat) :
  forall (b : Block.t) (net : Network.t G) bl nl bs,
  rewardsNonneg (Network.pools_ net) ->
  loop getDouble fuel b net = (bl, nl, bs) ->
  sumPoolRewards (Network.pools_ net) + sumRewards bs < W64 ->
  sumPoolRewards (Network.pools_ nl) + residualRewards bs
  = sumPoolRewards (Network.pools_ net) + sumRewards bs.
Proof.
  induction fuel as [|fuel IH]; intros b net bl nl bs Hn Hl Hlt.
  - cbn in Hl. injection Hl as <- <- <-. cbn. lia.
  - destruct (Z.ltb_spec tailEmission (Block.getReward b)) as [Hgt | Hle].
    + rewrite loop_step in Hl by exact Hgt.
      destruct (mineBlock getDouble net) as [b' net'] eqn:Hm.
      destruct (loop getDouble fuel b' net') as [[bl' nl'] bs'] eqn:Hl'.
      injection Hl as <- <- <-.
      change (sumRewards (b' :: bs')) with (Block.getReward b' + sumRewards bs') in *.
      pose proof (sumRewards_nonneg bs' (loop_rewards_ge getDouble fuel _ _ _ _ _ Hl')).
      destruct (mineBlock_pools getDouble net b' net' Hn Hm ltac:(lia)) as [Hstep Hn'].
      assert (Hres : residualRewards (b' :: bs') = residualRewards [b'] + residualRewards bs')
        by (unfold residualRewards; cbn [fold_right]; destruct (Block.minedBy_ b'); lia).
      assert (Hr1 : 0 <= residualRewards [b']).
      { pose proof (getBlockReward_ge_tail (Network.supply_ net)).
        rewrite <- (proj1 (mineBlock_reward getDouble net b' net' Hm)) in *.
        unfold residualRewards; cbn [fold_right]; destruct (Block.minedBy_ b');
          unfold tailEmission in *; lia. }
      rewrite Hres.
      pose proof (IH b' net' bl' nl' bs' Hn' Hl' ltac:(lia)). lia.
    + rewrite loop_stop in Hl by exact Hle. injection Hl as <- <- <-. cbn. lia.
Qed.

Lemma residualRewards_spec (bs : list Block.t) :
  Forall (fun x => tailEmission <= Block.getReward x) bs ->
  0 <= residualRewards bs /\
  (residualRewards bs = 0 <-> Forall (fun x => Block.minedBy_ x <> None) bs).
Proof.
  induction 1 as [|x l Hx _ [IH0 IH1]].
  - split; [reflexivity | split; [constructor | reflexivity]].
  - unfold tailEmission in Hx.
    change (residualRewards (x :: l)) with
      (match Block.minedBy_ x with
       | None => Block.getReward x + residualRewards l
       | Some _ => residualRewards l end).
    destruct (Block.minedBy_ x) as [i|] eqn:Ex.
    + split; [exact IH0|]. rewrite IH1. split.
      * intros H. constructor; [congruence | exact H].
      * intros H. inversion H; assumption.
    + split; [lia|]. split.
      * intros H. lia.
      * intros H. inversion H as [|? ? Hne]; subst. congruence.
Qed.

(** Every run mints at most [UINT64_MAX] in total: either the supply stays
    below the ceiling, or the run stops after a single block at the floor
    reward. *)
Lemma run_minted_bounded {G : Type} (getDouble : G -> float * G)
  (seedGen : Z -> G) (fuel : nat) (seed startingHeight startingSupply : Z)
  (pools : list Pool.t) (bl : Block.t) (nl : Network.t G) (bs : list Block.t) :
  0 <= startingSupply < W64 ->
  loop getDouble fuel sentinelBlock
    (initNetwork seedGen seed startingHeight startingSupply pools) = (bl, nl, bs) ->
  sumRewards bs <= moneySupply.
Proof.
  intros HS Hl.
  destruct (Z_le_gt_dec (startingSupply + tailEmission) moneySupply) as [Hroom | Hnear].
  - assert (Hinv : supplyInv sentinelBlock
                     (Network.supply_ (initNetwork seedGen seed startingHeight
                                         startingSupply pools)))
      by (cbn; split; [unfold tailEmission in *; lia | intros _; lia]).
    destruct (loop_supplyInv getDouble fuel _ _ bl nl bs Hinv Hl) as [Hs [HS' _]].
    cbn in Hs. lia.
  - destruct fuel as [|fuel].
    + cbn in Hl. injection Hl as <- <- <-. cbn. unfold moneySupply, W64. lia.
    + rewrite loop_step in Hl by (vm_compute; reflexivity).
      destruct (mineBlock getDouble _) as [b1 net1] eqn:Hm.
      destruct (mineBlock_reward getDouble _ b1 net1 Hm) as [Hr _].
      cbn [Network.supply_ initNetwork] in Hr.
      assert (Hb : getBaseReward startingSupply <= moneySupply - startingSupply)
        by (apply getBaseReward_bounds; unfold moneySupply in *; lia).
      assert (Hr1 : Block.getReward b1 = tailEmission)
        by (rewrite Hr, getBlockReward_max; lia).
      rewrite loop_stop in Hl by lia. injection Hl as <- <- <-.
      change (sumRewards [b1]) with (Block.getReward b1 + 0).
      rewrite Hr1. unfold tailEmission, moneySupply, W64. lia.
Qed.

Lemma fresh_pools (stats : list PoolStats.t) :
  sumPoolRewards (map PoolStats.getPool stats) = 0 /\
  rewardsNonneg (map PoolStats.getPool stats).
Proof.
  induction stats as [|ps stats [IH0 IH1]]; [split; [reflexivity | constructor]|].
  cbn [map]. rewrite sumPoolRewards_cons, IH0. split; [reflexivity|].
  constructor; [cbn; lia | exact IH1].
Qed.

(** C8 *)
(** Claim C8: at every point of a run (any number of loop iterations),
    the pools' accrued rewards sum to at most the reward minted so far, with
    equality exactly when every block mined so far went to a tracked pool. *)
Theorem run_pool_rewards_le_minted {G : Type} (getDouble : G -> float * G)
  (seedGen : Z -> G) (fuel : nat) (stats : list PoolStats.t)
  (seed startingHeight startingSupply : Z)
  (bl : Block.t) (nl : Network.t G) (bs : list Block.t)
  (HS : 0 <= startingSupply < W64)
  (Hl : loop getDouble fuel sentinelBlock
          (initNetwork seedGen seed startingHeight startingSupply
             (map PoolStats.getPool stats)) = (bl, nl, bs)) :
  sumPoolRewards (Network.pools_ nl) <= sumRewards bs /\
  (sumPoolRewards (Network.pools_ nl) = sumRewards bs <->
   Forall (fun x => Block.minedBy_ x <> None) bs).
Proof.
  destruct (fresh_pools stats) as [H0 Hn].
  pose proof (run_minted_bounded getDouble seedGen fuel seed startingHeight
                startingSupply _ bl nl bs HS Hl) as Hm.
  pose proof (loop_pools getDouble fuel sentinelBlock
                (initNetwork seedGen seed startingHeight startingSupply
                   (map PoolStats.getPool stats)) bl nl bs Hn Hl) as Hp.
  cbn [Network.pools_ initNetwork] in Hp. rewrite H0 in Hp.
  specialize (Hp ltac:(unfold moneySupply in Hm; lia)).
  destruct (residualRewards_spec bs (loop_rewards_ge getDouble fuel _ _ _ _ _ Hl))
    as [Hr0 Hr1].
  split; [lia|]. rewrite <- Hr1. lia.
Qed.

Lemma run_pool_rewards_le_minted_witness :
  exists bl nl bs,
    loop (constGen 0.25%float) 4%nat sentinelBlock
      (initNetwork (fun _ => 0%nat) 1 2082536 17532973286521961314
         (map PoolStats.getPool [PoolStats.mk "A" 0.3%float [] []]))
    = (bl, nl, bs) /\
    sumPoolRewards (Network.pools_ nl) <= sumRewards bs /\
    (sumPoolRewards (Network.pools_ nl) = sumRewards bs <->
     Forall (fun x => Block.minedBy_ x <> None) bs).
Proof.
  destruct (loop (constGen 0.25%float) 4%nat sentinelBlock
              (initNetwork (fun _ => 0%nat) 1 2082536 17532973286521961314
                 (map PoolStats.getPool [PoolStats.mk "A" 0.3%float [] []])))
    as [[bl nl] bs] eqn:E.
  assert (HS : 0 <= 17532973286521961314 < W64) by (unfold W64; lia).
  exists bl, nl, bs. split; [reflexivity|].
  exact (run_pool_rewards_le_minted (constGen 0.25%float) (fun _ => 0%nat) 4%nat
           [PoolStats.mk "A" 0.3%float [] []] 1 2082536 17532973286521961314
           bl nl bs HS E).
Defined.

(** ** Statistics *)

(** C1 *)
(** Counterexample to claim C1: for the samples 0 and 2 the program prints
    [stddev = sqrt(2 / 2 / 2) = 0.7071...], while the claimed error
    [sqrt(2 / 2) / 2] is 0.5. *)
Lemma printStats_error_not_over_N :
  snd (printStatsF [0%float; 2%float]) <> snd (specStatsF [0%float; 2%float]) /\
  snd (specStatsF [0%float; 2%float]) = 0.5%float.
Proof.
  split; [| vm_compute; reflexivity].
  intros H.
  assert (E : (snd (printStatsF [0%float; 2%float]) =? snd (specStatsF [0%float; 2%float]))%float
              = false) by (vm_compute; reflexivity).
  rewrite H in E. vm_compute in E. discriminate.
Qed.

(** Claim C1, amended: in exact arithmetic, for every non-empty sequence of
    [N] samples, [printStats] reports [mean = (sum samples) / N] and
    [error = sqrt((sum (sample - mean)^2) / N / N)], i.e. the standard
    deviation of the samples divided by [sqrt N], computed in two passes. *)
Theorem printStatsR_formula (values : list R) (Hne : values <> []) :
  let N := INR (List.length values) in
  let mean := (fold_left (fun s val => (s + val)%R) values 0%R / N)%R in
  let varsum := fold_left (fun s val => (s + (val - mean) * (val - mean))%R) values 0%R in
  printStatsR values = (mean, R_sqrt.sqrt (varsum / N) / R_sqrt.sqrt N)%R.
Proof.
  intros N mean varsum.
  assert (HN : (0 < N)%R).
  { unfold N. apply lt_0_INR. destruct values; [contradiction | cbn; lia]. }
  unfold printStatsR, printStats. cbv zeta. fold N. fold mean. fold varsum.
  f_equal. apply sqrt_div_alt. exact HN.
Qed.

Lemma printStatsR_formula_witness :
  [0%R; 2%R] <> [] /\
  printStatsR [0%R; 2%R] =
  ((fold_left (fun s val => (s + val)%R) [0%R; 2%R] 0%R / INR 2)%R,
   R_sqrt.sqrt (fold_left (fun s val =>
       (s + (val - fold_left (fun s val => (s + val)%R) [0%R; 2%R] 0%R / INR 2)
            * (val - fold_left (fun s val => (s + val)%R) [0%R; 2%R] 0%R / INR 2))%R)
     [0%R; 2%R] 0%R / INR 2) / R_sqrt.sqrt (INR 2))%R.
Proof.
  assert (H : [0%R; 2%R] <> []) by discriminate.
  split; [exact H | exact (printStatsR_formula [0%R; 2%R] H)].
Defined.

(** C9 *)
(** Claim C9: with no samples, [printStats] reports NaN for both the mean
    ([0.0 / 0]) and the error, which differs from a valid result 0 +/- 0. *)
Theorem printStats_empty_nan :
  PrimFloat.is_nan (fst (printStatsF [])) = true /\
  PrimFloat.is_nan (snd (printStatsF [])) = true /\
  fst (printStatsF []) <> 0%float /\
  snd (printStatsF []) <> 0%float.
Proof.
  assert (Hm : PrimFloat.is_nan (fst (printStatsF [])) = true) by (vm_compute; reflexivity).
  assert (He : PrimFloat.is_nan (snd (printStatsF [])) = true) by (vm_compute; reflexivity).
  split; [exact Hm | split; [exact He | split]].
  - intros H. rewrite H in Hm. vm_compute in Hm. discriminate.
  - intros H. rewrite H in He. vm_compute in He. discriminate.
Qed.

(** * Further properties of the simulation *)

(** ** Per-pool ledgers *)

(** Block [b] was mined by the pool at index [i]. *)
Definition wonBy (i : nat) (b : Block.t) : bool :=
  match Block.minedBy_ b with Some j => Nat.eqb i j | None => false end.

Definition wonCount (i : nat) (bs : list Block.t) : Z :=
  Z.of_nat (List.length (filter (wonBy i) bs)).

Definition wonRewards (i : nat) (bs : list Block.t) : Z :=
  sumRewards (filter (wonBy i) bs).

Lemma length_update_nth {A : Type} (i : nat) (f : A -> A) (l : list A) :
  List.length (update_nth i f l) = List.length l.
Proof.
  revert i. induction l as [|x l IH]; intros [|i]; cbn; auto.
Qed.

Lemma nth_error_update_nth {A : Type} (i j : nat) (f : A -> A) (l : list A) :
  nth_error (update_nth i f l) j =
  if Nat.eqb i j then option_map f (nth_error l j) else nth_error l j.
Proof.
  revert i j. induction l as [|x l IH]; intros [|i] [|j]; cbn; auto.
  - destruct (Nat.eqb i j); destruct j; reflexivity.
Qed.

Lemma mineBlock_ledger {G : Type} (getDouble : G -> float * G)
  (net : Network.t G) (b : Block.t) (net' : Network.t G) :
  mineBlock getDouble net = (b, net') ->
  List.length (Network.pools_ net') = List.length (Network.pools_ net) /\
  (forall i, Block.minedBy_ b = Some i -> (i < List.length (Network.pools_ net))%nat) /\
  Network.height_ net' = (Network.height_ net + 1) mod HeightMod /\
  Block.height_ b = (Network.height_ net + 1) mod HeightMod /\
  (forall j p, nth_error (Network.pools_ net) j = Some p ->
     nth_error (Network.pools_ net') j =
     Some (if wonBy j b then Pool.addBlock b p else p)).
Proof.
  intros Hm. destruct (mineBlock_eq getDouble net b net' Hm) as (pivot & g' & _ & Hb & Hn).
  assert (Hsel : Block.minedBy_ b = selectPool pivot 0%float (Network.pools_ net) 0)
    by (rewrite Hb; reflexivity).
  unfold wonBy. rewrite Hsel. rewrite Hn. cbn [Network.pools_ Network.height_].
  split; [| split; [| split; [reflexivity | split; [rewrite Hb; reflexivity |]]]].
  - destruct (selectPool pivot 0%float (Network.pools_ net) 0);
      [apply length_update_nth | reflexivity].
  - intros i Hi. pose proof (selectPool_lt _ _ _ _ _ Hi). lia.
  - intros j p Hp.
    destruct (selectPool pivot 0%float (Network.pools_ net) 0) as [i|] eqn:Hs.
    + rewrite nth_error_update_nth, Hp. cbn [option_map].
      rewrite Nat.eqb_sym. destruct (Nat.eqb j i); reflexivity.
    + exact Hp.
Qed.

(** A pool's counters are values of their C++ types. *)
Definition poolInRange (p : Pool.t) : Prop :=
  0 <= Pool.blocks_ p < HeightMod /\ 0 <= Pool.rewards_ p < W64.

Definition poolsInRange (pools : list Pool.t) : Prop :=
  forall j p, nth_error pools j = Some p -> poolInRange p.

Lemma wonCount_cons (j : nat) (x : Block.t) (bs : list Block.t) :
  wonCount j (x :: bs) = (if wonBy j x then 1 else 0) + wonCount j bs.
Proof.
  unfold wonCount. cbn [filter]. destruct (wonBy j x); cbn [List.length]; lia.
Qed.

Lemma wonRewards_cons (j : nat) (x : Block.t) (bs : list Block.t) :
  wonRewards j (x :: bs) = (if wonBy j x then Block.getReward x else 0) + wonRewards j bs.
Proof.
  unfold wonRewards. cbn [filter]. destruct (wonBy j x); reflexivity.
Qed.
(** How the loop moves the height, the pool list and each pool's counters:
    the [k]-th block mined gets height [height + k + 1], and each pool's
    counters grow by the blocks it won and their rewards, with the
    wrap-around of their types. *)
Lemma loop_ledger {G : Type} (getDouble : G -> float * G) (fuel : nat) :
  forall (b : Block.t) (net : Network.t G) bl nl bs,
  0 <= Network.height_ net < HeightMod ->
  poolsInRange (Network.pools_ net) ->
  loop getDouble fuel b net = (bl, nl, bs) ->
  List.length (Network.pools_ nl) = List.length (Network.pools_ net) /\
  Network.height_ nl = (Network.height_ net + Z.of_nat (List.length bs)) mod HeightMod /\
  (forall k x, nth_error bs k = Some x ->
     Block.height_ x = (Network.height_ net + Z.of_nat k + 1) mod HeightMod /\
     forall i, Block.minedBy_ x = Some i -> (i < List.length (Network.pools_ net))%nat) /\
  (forall j p, nth_error (Network.pools_ net) j = Some p ->
     exists p', nth_error (Network.pools_ nl) j = Some p' /\
       Pool.name_ p' = Pool.name_ p /\ Pool.hashrate_ p' = Pool.hashrate_ p /\
       Pool.blocks_ p' = (Pool.blocks_ p + wonCount j bs) mod HeightMod /\
       Pool.rewards_ p' = u64 (Pool.rewards_ p + wonRewards j bs)).
Proof.
  assert (Hnil : forall (net : Network.t G),
    0 <= Network.height_ net < HeightMod ->
    poolsInRange (Network.pools_ net) ->
    List.length (Network.pools_ net) = List.length (Network.pools_ net) /\
    Network.height_ net = (Network.height_ net + Z.of_nat (List.length (@nil Block.t))) mod HeightMod /\
    (forall k x, nth_error (@nil Block.t) k = Some x ->
       Block.height_ x = (Network.height_ net + Z.of_nat k + 1) mod HeightMod /\
       forall i, Block.minedBy_ x = Some i -> (i < List.length (Network.pools_ net))%nat) /\
    (forall j p, nth_error (Network.pools_ net) j = Some p ->
       exists p', nth_error (Network.pools_ net) j = Some p' /\
         Pool.name_ p' = Pool.name_ p /\ Pool.hashrate_ p' = Pool.hashrate_ p /\
         Pool.blocks_ p' = (Pool.blocks_ p + wonCount j []) mod HeightMod /\
         Pool.rewards_ p' = u64 (Pool.rewards_ p + wonRewards j []))).
  { intros net Hh Hr. split; [reflexivity | split; [| split]].
    - cbn [List.length Z.of_nat]. rewrite Z.add_0_r, Z.mod_small by exact Hh. reflexivity.
    - intros [|k] x Hx; discriminate.
    - intros j p Hp. exists p. destruct (Hr j p Hp) as [Hb Hw].
      change (wonCount j []) with 0. change (wonRewards j []) with 0. unfold u64.
      rewrite !Z.add_0_r, !Z.mod_small by assumption. auto. }
  induction fuel as [|fuel IH]; intros b net bl nl bs Hh Hr Hl.
  { cbn [loop] in Hl. injection Hl as <- <- <-. exact (Hnil net Hh Hr). }
  destruct (Z.ltb_spec tailEmission (Block.getReward b)) as [Hgt | Hle].
  2:{ rewrite loop_stop in Hl by exact Hle. injection Hl as <- <- <-. exact (Hnil net Hh Hr). }
  rewrite loop_step in Hl by exact Hgt.
  destruct (mineBlock getDouble net) as [b' net'] eqn:Hm.
  destruct (loop getDouble fuel b' net') as [[bl' nl'] bs'] eqn:Hl'.
  injection Hl as <- <- <-.
  destruct (mineBlock_ledger getDouble net b' net' Hm) as (L1 & L2 & L3 & L4 & L5).
  assert (HM : 0 < HeightMod) by (unfold HeightMod; lia).
  assert (Hh' : 0 <= Network.height_ net' < HeightMod)
    by (rewrite L3; apply Z.mod_pos_bound; exact HM).
  assert (Hr' : poolsInRange (Network.pools_ net')).
  { intros j p' Hp'. destruct (nth_error (Network.pools_ net) j) as [p|] eqn:Hp.
    - rewrite (L5 j p Hp) in Hp'. injection Hp' as <-.
      destruct (wonBy j b'); [|exact (Hr j p Hp)].
      unfold poolInRange, Pool.addBlock. cbn [Pool.blocks_ Pool.rewards_].
      split; [apply Z.mod_pos_bound; exact HM | apply u64_range].
    - apply nth_error_None in Hp. rewrite <- L1 in Hp.
      apply nth_error_None in Hp. congruence. }
  destruct (IH b' net' bl' nl' bs' Hh' Hr' Hl') as (I1 & I2 & I3 & I4).
  split; [congruence | split; [| split]].
  - rewrite I2, L3. change (List.length (b' :: bs')) with (S (List.length bs')).
    rewrite Nat2Z.inj_succ, Z.add_mod_idemp_l by lia. f_equal. lia.
  - intros [|k] x Hx.
    + cbn [nth_error] in Hx. injection Hx as <-.
      split; [rewrite L4; f_equal; lia | exact L2].
    + cbn [nth_error] in Hx. destruct (I3 k x Hx) as [Hxh Hxi]. split.
      * rewrite Hxh, L3, Nat2Z.inj_succ.
        rewrite <- !Z.add_assoc, Z.add_mod_idemp_l by lia. f_equal. lia.
      * intros i Hi. rewrite <- L1. exact (Hxi i Hi).
  - intros j p Hp. destruct (I4 j _ (L5 j p Hp)) as (p' & Hp' & Hn & Hhr & Hb & Hw).
    exists p'. rewrite wonCount_cons, wonRewards_cons.
    split; [exact Hp'|].
    destruct (wonBy j b'); unfold Pool.addBlock in Hn, Hhr, Hb, Hw;
      cbn [Pool.name_ Pool.hashrate_ Pool.blocks_ Pool.rewards_] in Hn, Hhr, Hb, Hw.
    + split; [exact Hn|]. split; [exact Hhr|]. split.
      * rewrite Hb, Z.add_mod_idemp_l by lia. f_equal. lia.
      * rewrite Hw. unfold u64. rewrite Z.add_mod_idemp_l by (unfold W64; lia).
        f_equal. lia.
    + split; [exact Hn|]. split; [exact Hhr|]. split.
      * rewrite Hb; f_equal; ring.
      * rewrite Hw; f_equal; ring.
Qed.

Lemma wonRewards_bounds (j : nat) (bs : list Block.t) :
  Forall (fun x => tailEmission <= Block.getReward x) bs ->
  0 <= wonRewards j bs <= sumRewards bs.
Proof.
  induction 1 as [|x l Hx _ IH]; [split; reflexivity|].
  rewrite wonRewards_cons.
  change (sumRewards (x :: l)) with (Block.getReward x + sumRewards l).
  unfold tailEmission in Hx. destruct (wonBy j x); lia.
Qed.

Lemma fresh_pools_range (stats : list PoolStats.t) :
  poolsInRange (map PoolStats.getPool stats).
Proof.
  intros j p Hp. rewrite nth_error_map in Hp.
  destruct (nth_error stats j); cbn in Hp; [|discriminate].
  injection Hp as <-. unfold poolInRange, HeightMod, W64. cbn. lia.
Qed.

(** The counters of the fresh pools of a run, at any point of the run. *)
Lemma fresh_run_ledger {G : Type} (getDouble : G -> float * G)
  (seedGen : Z -> G) (fuel : nat) (stats : list PoolStats.t)
  (seed startingHeight startingSupply : Z)
  (bl : Block.t) (nl : Network.t G) (bs : list Block.t) :
  0 <= startingHeight < HeightMod ->
  0 <= startingSupply < W64 ->
  loop getDouble fuel sentinelBlock
    (initNetwork seedGen seed startingHeight startingSupply
       (map PoolStats.getPool stats)) = (bl, nl, bs) ->
  List.length (Network.pools_ nl) = List.length stats /\
  (forall x i, In x bs -> Block.minedBy_ x = Some i -> (i < List.length stats)%nat) /\
  (forall j ps, nth_error stats j = Some ps ->
     exists p', nth_error (Network.pools_ nl) j = Some p' /\
       Pool.name_ p' = PoolStats.name_ ps /\ Pool.hashrate_ p' = PoolStats.hashrate_ ps /\
       Pool.blocks_ p' = wonCount j bs mod HeightMod /\
       Pool.rewards_ p' = wonRewards j bs).
Proof.
  intros Hh HS Hl.
  destruct (loop_ledger getDouble fuel sentinelBlock
              (initNetwork seedGen seed startingHeight startingSupply
                 (map PoolStats.getPool stats))
              bl nl bs Hh (fresh_pools_range stats) Hl)
    as (L1 & _ & L3 & L4).
  cbn [Network.pools_ initNetwork] in L1, L3, L4. rewrite length_map in L1, L3.
  pose proof (run_minted_bounded getDouble seedGen fuel seed startingHeight
                startingSupply _ bl nl bs HS Hl) as Hm.
  pose proof (loop_rewards_ge getDouble fuel _ _ bl nl bs Hl) as Hge.
  split; [exact L1 | split].
  - intros x i Hx Hi. destruct (In_nth_error bs x Hx) as [k Hk].
    exact (proj2 (L3 k x Hk) i Hi).
  - intros j ps Hps.
    assert (Hp : nth_error (map PoolStats.getPool stats) j = Some (PoolStats.getPool ps))
      by (rewrite nth_error_map, Hps; reflexivity).
    destruct (L4 j _ Hp) as (p' & Hp' & Hn & Hhr & Hb & Hw).
    exists p'. split; [exact Hp'|]. split; [exact Hn|]. split; [exact Hhr|].
    destruct (wonRewards_bounds j bs Hge) as [Hw0 Hw1].
    change (Pool.blocks_ (PoolStats.getPool ps)) with 0 in Hb.
    change (Pool.rewards_ (PoolStats.getPool ps)) with 0 in Hw.
    split; [exact Hb|]. rewrite Hw, Z.add_0_l. apply u64_id.
    unfold moneySupply, W64 in *. lia.
Qed.

(** X1 *)
(** At every point of a run, the pool list keeps its length, names and
    hashrates; every block is credited to an existing pool or to none; and
    each pool's [blocks_] and [rewards_] are the number of blocks it won
    (modulo the [Height] range) and the sum of their rewards. *)
Theorem run_pool_counters {G : Type} (getDouble : G -> float * G)
  (seedGen : Z -> G) (fuel : nat) (stats : list PoolStats.t)
  (seed startingHeight startingSupply : Z)
  (bl : Block.t) (nl : Network.t G) (bs : list Block.t)
  (Hh : 0 <= startingHeight < HeightMod)
  (HS : 0 <= startingSupply < W64)
  (Hl : loop getDouble fuel sentinelBlock
          (initNetwork seedGen seed startingHeight startingSupply
             (map PoolStats.getPool stats)) = (bl, nl, bs)) :
  List.length (Network.pools_ nl) = List.length stats /\
  (forall x i, In x bs -> Block.minedBy_ x = Some i -> (i < List.length stats)%nat) /\
  (forall j ps, nth_error stats j = Some ps ->
     exists p', nth_error (Network.pools_ nl) j = Some p' /\
       Pool.name_ p' = PoolStats.name_ ps /\ Pool.hashrate_ p' = PoolStats.hashrate_ ps /\
       Pool.blocks_ p' = wonCount j bs mod HeightMod /\
       Pool.rewards_ p' = wonRewards j bs).
Proof.
  exact (fresh_run_ledger getDouble seedGen fuel stats seed startingHeight
           startingSupply bl nl bs Hh HS Hl).
Qed.

Definition examplePoolStats : list PoolStats.t :=
  [PoolStats.mk "A" 0.3%float [] []; PoolStats.mk "B" 0.003%float [] []].

Lemma run_pool_counters_witness :
  exists bl nl bs,
    loop (constGen 0.25%float) 4%nat sentinelBlock
      (initNetwork (fun _ => 0%nat) 1 2082536 17532973286521961314
         (map PoolStats.getPool examplePoolStats)) = (bl, nl, bs) /\
    List.length (Network.pools_ nl) = List.length examplePoolStats /\
    (forall x i, In x bs -> Block.minedBy_ x = Some i ->
       (i < List.length examplePoolStats)%nat) /\
    (forall j ps, nth_error examplePoolStats j = Some ps ->
       exists p', nth_error (Network.pools_ nl) j = Some p' /\
         Pool.name_ p' = PoolStats.name_ ps /\ Pool.hashrate_ p' = PoolStats.hashrate_ ps /\
         Pool.blocks_ p' = wonCount j bs mod HeightMod /\
         Pool.rewards_ p' = wonRewards j bs).
Proof.
  destruct (loop (constGen 0.25%float) 4%nat sentinelBlock
              (initNetwork (fun _ => 0%nat) 1 2082536 17532973286521961314
                 (map PoolStats.getPool examplePoolStats))) as [[bl nl] bs] eqn:E.
  assert (Hh : 0 <= 2082536 < HeightMod) by (unfold HeightMod; lia).
  assert (HS : 0 <= 17532973286521961314 < W64) by (unfold W64; lia).
  exists bl, nl, bs. split; [reflexivity|].
  exact (run_pool_counters (constGen 0.25%float) (fun _ => 0%nat) 4%nat examplePoolStats
           1 2082536 17532973286521961314 bl nl bs Hh HS E).
Defined.

(** X2 *)
(** Along a run, the [k]-th mined block (from 0) has height
    [startingHeight + k + 1] and the network's height is [startingHeight]
    plus the number of blocks mined, both modulo the [Height] range. *)
Theorem run_block_heights {G : Type} (getDouble : G -> float * G)
  (seedGen : Z -> G) (fuel : nat) (pools : list Pool.t)
  (seed startingHeight startingSupply : Z)
  (bl : Block.t) (nl : Network.t G) (bs : list Block.t)
  (Hh : 0 <= startingHeight < HeightMod)
  (Hr : poolsInRange pools)
  (Hl : loop getDouble fuel sentinelBlock
          (initNetwork seedGen seed startingHeight startingSupply pools) = (bl, nl, bs)) :
  Network.height_ nl = (startingHeight + Z.of_nat (List.length bs)) mod HeightMod /\
  (forall k x, nth_error bs k = Some x ->
     Block.height_ x = (startingHeight + Z.of_nat k + 1) mod HeightMod).
Proof.
  destruct (loop_ledger getDouble fuel sentinelBlock
              (initNetwork seedGen seed startingHeight startingSupply pools)
              bl nl bs Hh Hr Hl) as (_ & L2 & L3 & _).
  split; [exact L2|]. intros k x Hx. exact (proj1 (L3 k x Hx)).
Qed.

Lemma run_block_heights_witness :
  exists bl nl bs,
    loop (constGen 0.25%float) 4%nat sentinelBlock
      (initNetwork (fun _ => 0%nat) 1 2082536 17532973286521961314 examplePools)
    = (bl, nl, bs) /\
    Network.height_ nl = (2082536 + Z.of_nat (List.length bs)) mod HeightMod /\
    (forall k x, nth_error bs k = Some x ->
       Block.height_ x = (2082536 + Z.of_nat k + 1) mod HeightMod).
Proof.
  destruct (loop (constGen 0.25%float) 4%nat sentinelBlock
              (initNetwork (fun _ => 0%nat) 1 2082536 17532973286521961314 examplePools))
    as [[bl nl] bs] eqn:E.
  assert (Hh : 0 <= 2082536 < HeightMod) by (unfold HeightMod; lia).
  assert (Hr : poolsInRange examplePools) by exact (fresh_pools_range examplePoolStats).
  exists bl, nl, bs. split; [reflexivity|].
  exact (run_block_heights (constGen 0.25%float) (fun _ => 0%nat) 4%nat examplePools
           1 2082536 17532973286521961314 bl nl bs Hh Hr E).
Defined.

(** ** A single pool with the whole hashrate *)

Lemma mineBlock_single_pool {G : Type} (getDouble : G -> float * G)
  (net : Network.t G) (b : Block.t) (net' : Network.t G) (p : Pool.t) :
  Network.pools_ net = [p] -> Pool.hashrate_ p = 1%float ->
  (forall g, (fst (getDouble g) <=? 1)%float = true) ->
  mineBlock getDouble net = (b, net') ->
  Block.minedBy_ b = Some 0%nat /\ Network.pools_ net' = [Pool.addBlock b p].
Proof.
  intros Hp Hh Hd Hm.
  destruct (mineBlock_eq getDouble net b net' Hm) as (pivot & g' & Hg & Hb & Hn).
  assert (Hsel : selectPool pivot 0%float (Network.pools_ net) 0 = Some 0%nat).
  { rewrite Hp. cbn [selectPool]. rewrite Hh.
    change (0 + 1)%float with 1%float.
    specialize (Hd (Network.rng_ net)). rewrite Hg in Hd. cbn in Hd. rewrite Hd.
    reflexivity. }
  split.
  - rewrite Hb. cbn [Block.minedBy_]. exact Hsel.
  - rewrite Hn. cbn [Network.pools_]. rewrite Hsel, Hp. reflexivity.
Qed.

Lemma loop_single_pool {G : Type} (getDouble : G -> float * G)
  (Hd : forall g, (fst (getDouble g) <=? 1)%float = true) (fuel : nat) :
  forall (b : Block.t) (net : Network.t G) (p : Pool.t) bl nl bs,
  Network.pools_ net = [p] -> Pool.hashrate_ p = 1%float ->
  loop getDouble fuel b net = (bl, nl, bs) ->
  Forall (fun x => Block.minedBy_ x = Some 0%nat) bs.
Proof.
  induction fuel as [|fuel IH]; intros b net p bl nl bs Hp Hh Hl.
  { cbn [loop] in Hl. injection Hl as <- <- <-. constructor. }
  destruct (Z.ltb_spec tailEmission (Block.getReward b)) as [Hgt | Hle].
  2:{ rewrite loop_stop in Hl by exact Hle. injection Hl as <- <- <-. constructor. }
  rewrite loop_step in Hl by exact Hgt.
  destruct (mineBlock getDouble net) as [b' net'] eqn:Hm.
  destruct (loop getDouble fuel b' net') as [[bl' nl'] bs'] eqn:Hl'.
  injection Hl as <- <- <-.
  destruct (mineBlock_single_pool getDouble net b' net' p Hp Hh Hd Hm) as [Hw Hp'].
  constructor; [exact Hw|].
  exact (IH b' net' (Pool.addBlock b' p) bl' nl' bs' Hp' Hh Hl').
Qed.

Lemma filter_wonBy_all (j : nat) (bs : list Block.t) :
  Forall (fun x => Block.minedBy_ x = Some j) bs -> filter (wonBy j) bs = bs.
Proof.
  induction 1 as [|x l Hx _ IH]; [reflexivity|].
  cbn [filter]. unfold wonBy at 1. rewrite Hx, Nat.eqb_refl, IH. reflexivity.
Qed.

(** X3 *)
(** With a single pool of hashrate 1.0 and draws never above 1.0, every
    block of a run goes to that pool: at every point its [blocks_] is the
    number of blocks mined (modulo the [Height] range) and its [rewards_]
    the total reward minted. *)
Theorem run_single_pool_wins_all {G : Type} (getDouble : G -> float * G)
  (seedGen : Z -> G) (fuel : nat) (name : string) (bc br : list float)
  (seed startingHeight startingSupply : Z)
  (bl : Block.t) (nl : Network.t G) (bs : list Block.t)
  (Hd : forall g, (fst (getDouble g) <=? 1)%float = true)
  (Hh : 0 <= startingHeight < HeightMod)
  (HS : 0 <= startingSupply < W64)
  (Hl : loop getDouble fuel sentinelBlock
          (initNetwork seedGen seed startingHeight startingSupply
             (map PoolStats.getPool [PoolStats.mk name 1%float bc br])) = (bl, nl, bs)) :
  Forall (fun x => Block.minedBy_ x = Some 0%nat) bs /\
  exists p, Network.pools_ nl = [p] /\
    Pool.blocks_ p = Z.of_nat (List.length bs) mod HeightMod /\
    Pool.rewards_ p = sumRewards bs.
Proof.
  assert (Hall : Forall (fun x => Block.minedBy_ x = Some 0%nat) bs).
  { exact (loop_single_pool getDouble Hd fuel sentinelBlock
             (initNetwork seedGen seed startingHeight startingSupply
                (map PoolStats.getPool [PoolStats.mk name 1%float bc br]))
             (Pool.create name 1%float) bl nl bs eq_refl eq_refl Hl). }
  split; [exact Hall|].
  destruct (fresh_run_ledger getDouble seedGen fuel _ seed startingHeight startingSupply
              bl nl bs Hh HS Hl) as (L1 & _ & L3).
  destruct (L3 0%nat _ eq_refl) as (p & Hp & _ & _ & Hb & Hw).
  exists p. split.
  - destruct (Network.pools_ nl) as [|q [|q' rest]]; cbn in L1; try discriminate.
    cbn in Hp. injection Hp as ->. reflexivity.
  - unfold wonCount, wonRewards in *. rewrite filter_wonBy_all in Hb, Hw by exact Hall.
    split; [exact Hb | exact Hw].
Qed.

Lemma run_single_pool_wins_all_witness :
  exists bl nl bs,
    loop (constGen 0.75%float) 4%nat sentinelBlock
      (initNetwork (fun _ => 0%nat) 1 2082536 17532973286521961314
         (map PoolStats.getPool [PoolStats.mk "A" 1%float [] []])) = (bl, nl, bs) /\
    Forall (fun x => Block.minedBy_ x = Some 0%nat) bs /\
    exists p, Network.pools_ nl = [p] /\
      Pool.blocks_ p = Z.of_nat (List.length bs) mod HeightMod /\
      Pool.rewards_ p = sumRewards bs.
Proof.
  destruct (loop (constGen 0.75%float) 4%nat sentinelBlock
              (initNetwork (fun _ => 0%nat) 1 2082536 17532973286521961314
                 (map PoolStats.getPool [PoolStats.mk "A" 1%float [] []])))
    as [[bl nl] bs] eqn:E.
  assert (Hd : forall g, (fst (constGen 0.75%float g) <=? 1)%float = true)
    by (intros g; vm_compute; reflexivity).
  assert (Hh : 0 <= 2082536 < HeightMod) by (unfold HeightMod; lia).
  assert (HS : 0 <= 17532973286521961314 < W64) by (unfold W64; lia).
  exists bl, nl, bs. split; [reflexivity|].
  exact (run_single_pool_wins_all (constGen 0.75%float) (fun _ => 0%nat) 4%nat "A" [] []
           1 2082536 17532973286521961314 bl nl bs Hd Hh HS E).
Defined.

(** ** How many blocks a run mines, and where it stops *)

Lemma sumRewards_ge_tail (bs : list Block.t) :
  Forall (fun x => tailEmission <= Block.getReward x) bs ->
  tailEmission * Z.of_nat (List.length bs) <= sumRewards bs.
Proof.
  induction 1 as [|x l Hx _ IH]; [cbn; lia|].
  change (sumRewards (x :: l)) with (Block.getReward x + sumRewards l).
  cbn [List.length]. rewrite Nat2Z.inj_succ. lia.
Qed.

(** X4 *)
(** Every block of a run mints at least [F], and the run never mints more
    than [C] in total, so at every point the number of blocks mined is at
    most [C / F] (30744573). *)
Theorem run_block_count_bounded {G : Type} (getDouble : G -> float * G)
  (seedGen : Z -> G) (fuel : nat) (pools : list Pool.t)
  (seed startingHeight startingSupply : Z)
  (bl : Block.t) (nl : Network.t G) (bs : list Block.t)
  (HS : 0 <= startingSupply < W64)
  (Hl : loop getDouble fuel sentinelBlock
          (initNetwork seedGen seed startingHeight startingSupply pools) = (bl, nl, bs)) :
  tailEmission * Z.of_nat (List.length bs) <= sumRewards bs <= moneySupply /\
  Z.of_nat (List.length bs) <= moneySupply / tailEmission.
Proof.
  pose proof (run_minted_bounded getDouble seedGen fuel seed startingHeight
                startingSupply pools bl nl bs HS Hl) as Hm.
  pose proof (sumRewards_ge_tail bs (loop_rewards_ge getDouble fuel _ _ bl nl bs Hl)) as Hg.
  split; [lia|].
  apply Z.div_le_lower_bound; [unfold tailEmission; lia | lia].
Qed.

Lemma run_block_count_bounded_witness :
  exists bl nl bs,
    loop (constGen 0.25%float) 6%nat sentinelBlock
      (initNetwork (fun _ => 0%nat) 1 2082536 (moneySupply - 3000000000000) examplePools)
    = (bl, nl, bs) /\
    tailEmission * Z.of_nat (List.length bs) <= sumRewards bs <= moneySupply /\
    Z.of_nat (List.length bs) <= moneySupply / tailEmission.
Proof.
  destruct (loop (constGen 0.25%float) 6%nat sentinelBlock
              (initNetwork (fun _ => 0%nat) 1 2082536 (moneySupply - 3000000000000)
                 examplePools)) as [[bl nl] bs] eqn:E.
  assert (HS : 0 <= moneySupply - 3000000000000 < W64) by (unfold moneySupply, W64; lia).
  exists bl, nl, bs. split; [reflexivity|].
  exact (run_block_count_bounded (constGen 0.25%float) (fun _ => 0%nat) 6%nat examplePools
           1 2082536 (moneySupply - 3000000000000) bl nl bs HS E).
Defined.

Lemma loop_nil {G : Type} (getDouble : G -> float * G) (fuel : nat)
  (b : Block.t) (net : Network.t G) bl nl :
  loop getDouble fuel b net = (bl, nl, []) -> bl = b /\ nl = net.
Proof.
  destruct fuel as [|fuel].
  - cbn [loop]. intros H. injection H as <- <-. split; reflexivity.
  - destruct (Z.ltb_spec tailEmission (Block.getReward b)) as [Hgt | Hle].
    + rewrite loop_step by exact Hgt.
      destruct (mineBlock getDouble net) as [b' net'].
      destruct (loop getDouble fuel b' net') as [[bl' nl'] bs']. discriminate.
    + rewrite loop_stop by exact Hle. intros H. injection H as <- <-. split; reflexivity.
Qed.

(** The last block mined was priced at the supply just before it. *)
Lemma loop_last_supply {G : Type} (getDouble : G -> float * G) (fuel : nat) :
  forall (b : Block.t) (net : Network.t G) bl nl bs,
  supplyInv b (Network.supply_ net) ->
  loop getDouble fuel b net = (bl, nl, bs) ->
  bs <> [] ->
  exists Sprev, 0 <= Sprev <= moneySupply /\
    Block.getReward bl = getBlockReward Sprev /\
    Network.supply_ nl = Sprev + Block.getReward bl.
Proof.
  induction fuel as [|fuel IH]; intros b net bl nl bs Hinv Hl Hne.
  { cbn [loop] in Hl. injection Hl as _ _ <-. contradiction. }
  destruct (Z.ltb_spec tailEmission (Block.getReward b)) as [Hgt | Hle].
  2:{ rewrite loop_stop in Hl by exact Hle. injection Hl as _ _ <-. contradiction. }
  rewrite loop_step in Hl by exact Hgt.
  destruct (mineBlock getDouble net) as [b' net'] eqn:Hm.
  destruct (loop getDouble fuel b' net') as [[bl' nl'] bs'] eqn:Hl'.
  injection Hl as <- <- <-.
  destruct Hinv as [HS Hroom]. specialize (Hroom Hgt).
  destruct (mineBlock_supplyInv getDouble net b' net' HS Hroom Hm) as [Hs Hinv'].
  destruct (mineBlock_reward getDouble net b' net' Hm) as [Hr _].
  destruct bs' as [|x bs'].
  - destruct (loop_nil getDouble fuel b' net' bl' nl' Hl') as [-> ->].
    exists (Network.supply_ net). split; [exact HS | split; [exact Hr | exact Hs]].
  - apply (IH b' net' bl' nl' (x :: bs') Hinv' Hl'). discriminate.
Qed.

(** X5 *)
(** When a run from a starting supply [S0 <= C - F] stops, the block it
    stopped on paid exactly [F]; it was mined at a supply whose base reward
    had fallen to at most [F], so the final supply lies within
    [(F + 1) * 2^18 - F] of the ceiling [C] (and at most [C]). *)
Theorem run_stops_near_ceiling {G : Type} (getDouble : G -> float * G)
  (seedGen : Z -> G) (fuel : nat) (pools : list Pool.t)
  (seed startingHeight startingSupply : Z)
  (bl : Block.t) (nl : Network.t G) (bs : list Block.t)
  (HS : 0 <= startingSupply /\ startingSupply + tailEmission <= moneySupply)
  (Hl : loop getDouble fuel sentinelBlock
          (initNetwork seedGen seed startingHeight startingSupply pools) = (bl, nl, bs))
  (Hd : loopDone bl = true) :
  Block.getReward bl = tailEmission /\
  getBaseReward (Network.supply_ nl - tailEmission) <= tailEmission /\
  moneySupply - (tailEmission + 1) * 2 ^ 18 + tailEmission < Network.supply_ nl
    <= moneySupply.
Proof.
  assert (Hinv : supplyInv sentinelBlock
                   (Network.supply_ (initNetwork seedGen seed startingHeight
                                       startingSupply pools)))
    by (cbn; split; [unfold tailEmission in *; lia | intros _; lia]).
  assert (Hsent : tailEmission < Block.getReward sentinelBlock) by (vm_compute; reflexivity).
  destruct (loop_trace getDouble fuel _ _ bl nl bs Hsent Hl Hd) as (pre & Hbs & _ & Hle).
  assert (Hin : In bl bs) by (rewrite Hbs; apply in_or_app; right; left; reflexivity).
  pose proof (proj1 (Forall_forall _ bs) (loop_rewards_ge getDouble fuel _ _ bl nl bs Hl)
                bl Hin) as Hge.
  cbv beta in Hge.
  assert (Hr : Block.getReward bl = tailEmission) by lia.
  assert (Hne : bs <> []) by (rewrite Hbs; destruct pre; discriminate).
  destruct (loop_supplyInv getDouble fuel _ _ bl nl bs Hinv Hl) as [_ [Hrange _]].
  destruct (loop_last_supply getDouble fuel _ _ bl nl bs Hinv Hl Hne)
    as (Sprev & HSp & HrS & Hs).
  rewrite Hr in HrS, Hs.
  assert (Hbase : getBaseReward Sprev <= tailEmission)
    by (rewrite getBlockReward_max in HrS; lia).
  rewrite getBaseReward_div in Hbase by exact HSp.
  split; [exact Hr|]. split.
  - replace (Network.supply_ nl - tailEmission) with Sprev by lia.
    rewrite getBaseReward_div by exact HSp. exact Hbase.
  - split; [|lia].
    assert (Hlt : moneySupply - Sprev < (tailEmission + 1) * 2 ^ 18).
    { destruct (Z_lt_le_dec (moneySupply - Sprev) ((tailEmission + 1) * 2 ^ 18))
        as [Hlt | Hge']; [exact Hlt|].
      exfalso. assert (Hq : tailEmission + 1 <= (moneySupply - Sprev) / 2 ^ 18)
        by (apply Z.div_le_lower_bound; lia).
      lia. }
    lia.
Qed.

Lemma run_stops_near_ceiling_witness :
  exists bl nl bs,
    loop (constGen 0.25%float) 3%nat sentinelBlock
      (initNetwork (fun _ => 0%nat) 1 2082536 (moneySupply - 1000000000000) examplePools)
    = (bl, nl, bs) /\
    Block.getReward bl = tailEmission /\
    getBaseReward (Network.supply_ nl - tailEmission) <= tailEmission /\
    moneySupply - (tailEmission + 1) * 2 ^ 18 + tailEmission < Network.supply_ nl
      <= moneySupply.
Proof.
  destruct (loop (constGen 0.25%float) 3%nat sentinelBlock
              (initNetwork (fun _ => 0%nat) 1 2082536 (moneySupply - 1000000000000)
                 examplePools)) as [[bl nl] bs] eqn:E.
  assert (HS : 0 <= moneySupply - 1000000000000 /\
               moneySupply - 1000000000000 + tailEmission <= moneySupply)
    by (unfold moneySupply, W64, tailEmission; lia).
  assert (Hd : loopDone bl = true).
  { vm_compute in E. injection E as <- <- <-. vm_compute. reflexivity. }
  exists bl, nl, bs. split; [reflexivity|].
  exact (run_stops_near_ceiling (constGen 0.25%float) (fun _ => 0%nat) 3%nat examplePools
           1 2082536 (moneySupply - 1000000000000) bl nl bs HS E Hd).
Defined.

(** ** Accumulating the statistics *)

Lemma nth_error_combine {A B : Type} (l : list A) (l' : list B) (j : nat) :
  nth_error (combine l l') j =
  match nth_error l j, nth_error l' j with
  | Some x, Some y => Some (x, y)
  | _, _ => None
  end.
Proof.
  revert l' j. induction l as [|x l IH]; intros l' j.
  - destruct j; reflexivity.
  - destruct l' as [|y l']; destruct j as [|j]; cbn; try reflexivity.
    + destruct (nth_error l j); reflexivity.
    + apply IH.
Qed.

(** One completed run appends to each pool's two sets exactly one sample:
    the blocks the pool won in the run and their total reward in XMR. *)
Lemma simulate_accumulate {G : Type} (getDouble : G -> float * G)
  (seedGen : Z -> G) (fuel : nat) (stats stats' : list PoolStats.t)
  (seed startingHeight startingSupply : Z) :
  0 <= startingHeight < HeightMod ->
  0 <= startingSupply < W64 ->
  simulateUntilTailEmission getDouble seedGen fuel stats seed startingHeight
    startingSupply = Some stats' ->
  exists bl nl bs,
    loop getDouble fuel sentinelBlock
      (initNetwork seedGen seed startingHeight startingSupply
         (map PoolStats.getPool stats)) = (bl, nl, bs) /\
    loopDone bl = true /\
    List.length stats' = List.length stats /\
    (forall j ps, nth_error stats j = Some ps ->
       nth_error stats' j =
       Some (PoolStats.mk (PoolStats.name_ ps) (PoolStats.hashrate_ ps)
               (PoolStats.blockCounts_ ps ++ [toDouble (wonCount j bs mod HeightMod)])
               (PoolStats.blockRewards_ ps ++ [(toDouble (wonRewards j bs) / xmrUnit)%float]))).
Proof.
  intros Hh HS Hs. unfold simulateUntilTailEmission in Hs.
  destruct (loop getDouble fuel sentinelBlock _) as [[bl nl] bs] eqn:Hl.
  destruct (loopDone bl) eqn:Hd; [|discriminate].
  injection Hs as <-.
  destruct (fresh_run_ledger getDouble seedGen fuel stats seed startingHeight
              startingSupply bl nl bs Hh HS Hl) as (L1 & _ & L3).
  exists bl, nl, bs. split; [reflexivity|]. split; [exact Hd|]. split.
  - rewrite length_map, length_combine, L1. apply Nat.min_id.
  - intros j ps Hps. rewrite nth_error_map, nth_error_combine, Hps.
    destruct (L3 j ps Hps) as (p' & Hp' & Hn & Hhr & Hb & Hw).
    rewrite Hp'. cbn [option_map]. unfold PoolStats.accumulate, addValue.
    rewrite Hb, Hw. reflexivity.
Qed.

(** X6 *)
(** A call of [simulateUntilTailEmission] that completes its run keeps the
    pool list and appends to each pool's "blocks" set the number of blocks
    the pool won in that run (modulo the [Height] range) and to its
    "reward" set the sum of their rewards divided by [xmrUnit]. *)
Theorem simulate_appends_one_sample {G : Type} (getDouble : G -> float * G)
  (seedGen : Z -> G) (fuel : nat) (stats stats' : list PoolStats.t)
  (seed startingHeight startingSupply : Z)
  (Hh : 0 <= startingHeight < HeightMod)
  (HS : 0 <= startingSupply < W64)
  (Hs : simulateUntilTailEmission getDouble seedGen fuel stats seed startingHeight
          startingSupply = Some stats') :
  exists bl nl bs,
    loop getDouble fuel sentinelBlock
      (initNetwork seedGen seed startingHeight startingSupply
         (map PoolStats.getPool stats)) = (bl, nl, bs) /\
    loopDone bl = true /\
    List.length stats' = List.length stats /\
    (forall j ps, nth_error stats j = Some ps ->
       nth_error stats' j =
       Some (PoolStats.mk (PoolStats.name_ ps) (PoolStats.hashrate_ ps)
               (PoolStats.blockCounts_ ps ++ [toDouble (wonCount j bs mod HeightMod)])
               (PoolStats.blockRewards_ ps ++ [(toDouble (wonRewards j bs) / xmrUnit)%float]))).
Proof.
  exact (simulate_accumulate getDouble seedGen fuel stats stats' seed startingHeight
           startingSupply Hh HS Hs).
Qed.

Lemma simulate_appends_one_sample_witness :
  exists stats',
    simulateUntilTailEmission (constGen 0.25%float) (fun _ => 0%nat) 3%nat mainPools 1
      mainStartingHeight (moneySupply - 1000000000000) = Some stats' /\
    exists bl nl bs,
      loop (constGen 0.25%float) 3%nat sentinelBlock
        (initNetwork (fun _ => 0%nat) 1 mainStartingHeight (moneySupply - 1000000000000)
           (map PoolStats.getPool mainPools)) = (bl, nl, bs) /\
      loopDone bl = true /\
      List.length stats' = List.length mainPools /\
      (forall j ps, nth_error mainPools j = Some ps ->
         nth_error stats' j =
         Some (PoolStats.mk (PoolStats.name_ ps) (PoolStats.hashrate_ ps)
                 (PoolStats.blockCounts_ ps ++ [toDouble (wonCount j bs mod HeightMod)])
                 (PoolStats.blockRewards_ ps ++
                    [(toDouble (wonRewards j bs) / xmrUnit)%float]))).
Proof.
  destruct (simulateUntilTailEmission (constGen 0.25%float) (fun _ => 0%nat) 3%nat mainPools 1
              mainStartingHeight (moneySupply - 1000000000000)) as [stats'|] eqn:E.
  2:{ vm_compute in E. discriminate. }
  assert (Hh : 0 <= mainStartingHeight < HeightMod) by (unfold mainStartingHeight, HeightMod; lia).
  assert (HS : 0 <= moneySupply - 1000000000000 < W64) by (unfold moneySupply, W64; lia).
  exists stats'. split; [reflexivity|].
  exact (simulate_appends_one_sample (constGen 0.25%float) (fun _ => 0%nat) 3%nat mainPools
           stats' 1 mainStartingHeight (moneySupply - 1000000000000) Hh HS E).
Defined.

(** ** The seed loop of [main] *)

(** A loop that has stopped gives the same result with more fuel. *)
Lemma loop_fuel_mono {G : Type} (getDouble : G -> float * G) (fuel : nat) :
  forall (b : Block.t) (net : Network.t G) bl nl bs fuel',
  loop getDouble fuel b net = (bl, nl, bs) ->
  loopDone bl = true ->
  (fuel <= fuel')%nat ->
  loop getDouble fuel' b net = (bl, nl, bs).
Proof.
  unfold loopDone.
  induction fuel as [|fuel IH]; intros b net bl nl bs fuel' Hl Hd Hle.
  - cbn [loop] in Hl. injection Hl as <- <- <-.
    apply loop_stop. destruct (Z.ltb_spec tailEmission (Block.getReward b));
      [discriminate | exact H].
  - destruct fuel' as [|fuel']; [lia|].
    destruct (Z.ltb_spec tailEmission (Block.getReward b)) as [Hgt | Hst].
    + rewrite loop_step in Hl |- * by exact Hgt.
      destruct (mineBlock getDouble net) as [b' net'].
      destruct (loop getDouble fuel b' net') as [[bl' nl'] bs'] eqn:Hl'.
      injection Hl as <- <- <-.
      rewrite (IH b' net' bl' nl' bs' fuel' Hl' Hd ltac:(lia)). reflexivity.
    + rewrite loop_stop in Hl |- * by exact Hst. exact Hl.
Qed.

Lemma simulate_fuel_mono {G : Type} (getDouble : G -> float * G)
  (seedGen : Z -> G) (fuel fuel' : nat) (stats stats' : list PoolStats.t)
  (seed startingHeight startingSupply : Z) :
  simulateUntilTailEmission getDouble seedGen fuel stats seed startingHeight
    startingSupply = Some stats' ->
  (fuel <= fuel')%nat ->
  simulateUntilTailEmission getDouble seedGen fuel' stats seed startingHeight
    startingSupply = Some stats'.
Proof.
  unfold simulateUntilTailEmission. intros Hs Hle.
  destruct (loop getDouble fuel sentinelBlock _) as [[bl nl] bs] eqn:Hl.
  destruct (loopDone bl) eqn:Hd; [|discriminate].
  rewrite (loop_fuel_mono getDouble fuel _ _ bl nl bs fuel' Hl Hd Hle), Hd. exact Hs.
Qed.

Lemma simulate_completes {G : Type} (getDouble : G -> float * G)
  (seedGen : Z -> G) (stats : list PoolStats.t)
  (seed startingHeight startingSupply : Z) :
  0 <= startingSupply < W64 ->
  exists fuel stats',
    simulateUntilTailEmission getDouble seedGen fuel stats seed startingHeight
      startingSupply = Some stats'.
Proof.
  intros HS.
  destruct (loop_terminates getDouble (S (Z.to_nat (moneySupply - startingSupply)))
              sentinelBlock
              (initNetwork seedGen seed startingHeight startingSupply
                 (map PoolStats.getPool stats)))
    as [fuel Hf];
    [ cbn [Network.supply_ initNetwork]; unfold moneySupply; lia
    | cbn [Network.supply_ initNetwork];
      rewrite Nat2Z.inj_succ, Z2Nat.id by (unfold moneySupply, W64 in *; lia); lia
    |].
  exists fuel. unfold simulateUntilTailEmission.
  destruct (loop getDouble fuel sentinelBlock _) as [[bl nl] bs]. cbn in Hf.
  rewrite Hf. eexists. reflexivity.
Qed.

(** The pools after a number of completed runs: same names and hashrates,
    [k] more samples in each set. *)
Definition samplesAdded (k : nat) (stats stats' : list PoolStats.t) : Prop :=
  List.length stats' = List.length stats /\
  forall j ps, nth_error stats j = Some ps ->
    exists ps', nth_error stats' j = Some ps' /\
      PoolStats.name_ ps' = PoolStats.name_ ps /\
      PoolStats.hashrate_ ps' = PoolStats.hashrate_ ps /\
      List.length (PoolStats.blockCounts_ ps') = (List.length (PoolStats.blockCounts_ ps) + k)%nat /\
      List.length (PoolStats.blockRewards_ ps') = (List.length (PoolStats.blockRewards_ ps) + k)%nat.

Lemma runSeeds_completes {G : Type} (getDouble : G -> float * G)
  (seedGen : Z -> G) (startingHeight startingSupply : Z)
  (Hh : 0 <= startingHeight < HeightMod) (HS : 0 <= startingSupply < W64)
  (seeds : list Z) :
  forall stats, exists fuel, forall fuel', (fuel <= fuel')%nat ->
  exists stats',
    runSeeds getDouble seedGen fuel' stats seeds startingHeight startingSupply = Some stats' /\
    samplesAdded (List.length seeds) stats stats'.
Proof.
  induction seeds as [|seed seeds IH]; intros stats.
  - exists 0%nat. intros fuel' _. exists stats. split; [reflexivity|].
    split; [reflexivity|]. intros j ps Hps. exists ps. rewrite !Nat.add_0_r.
    repeat split; assumption || reflexivity.
  - destruct (simulate_completes getDouble seedGen stats seed startingHeight
                startingSupply HS) as (fuel1 & st1 & Hs1).
    destruct (IH st1) as [fuel2 Hr2].
    exists (Nat.max fuel1 fuel2). intros fuel' Hle.
    pose proof (simulate_fuel_mono getDouble seedGen fuel1 fuel' stats st1 seed
                  startingHeight startingSupply Hs1 ltac:(lia)) as Hs1'.
    destruct (Hr2 fuel' ltac:(lia)) as (stats' & Hr & Hlen & Hnth).
    destruct (simulate_accumulate getDouble seedGen fuel' stats st1 seed startingHeight
                startingSupply Hh HS Hs1') as (bl & nl & bs & _ & _ & Hlen1 & Hnth1).
    exists stats'. cbn [runSeeds]. rewrite Hs1'. split; [exact Hr|].
    split; [congruence|]. intros j ps Hps.
    pose proof (Hnth1 j ps Hps) as Hp1.
    destruct (Hnth j _ Hp1) as (ps' & Hps' & Hn & Hhr & Hc & Hw).
    exists ps'. cbn [PoolStats.name_ PoolStats.hashrate_ PoolStats.blockCounts_
                     PoolStats.blockRewards_] in Hn, Hhr, Hc, Hw.
    rewrite length_app in Hc, Hw. cbn [List.length] in Hc, Hw |- *.
    repeat split; [exact Hps' | exact Hn | exact Hhr | |]; lia.
Qed.

(** X7 *)
(** For any starting height and [uint64_t] starting supply, the seed loop
    of [main] finishes every run, keeps the pools with their names and
    hashrates, and leaves each pool's two sets with one more sample per
    seed ([main]: 1000 samples). *)
Theorem runSeeds_one_sample_per_seed {G : Type} (getDouble : G -> float * G)
  (seedGen : Z -> G) (stats : list PoolStats.t) (seeds : list Z)
  (startingHeight startingSupply : Z)
  (Hh : 0 <= startingHeight < HeightMod) (HS : 0 <= startingSupply < W64) :
  exists fuel stats',
    runSeeds getDouble seedGen fuel stats seeds startingHeight startingSupply = Some stats' /\
    samplesAdded (List.length seeds) stats stats'.
Proof.
  destruct (runSeeds_completes getDouble seedGen startingHeight startingSupply Hh HS
              seeds stats) as [fuel Hf].
  exists fuel. exact (Hf fuel (Nat.le_refl fuel)).
Qed.

Lemma runSeeds_one_sample_per_seed_witness :
  exists fuel stats',
    runSeeds (constGen 0.25%float) (fun _ => 0%nat) fuel mainPools mainSeeds
      mainStartingHeight 17532973286521961314 = Some stats' /\
    samplesAdded 1000 mainPools stats'.
Proof.
  assert (Hh : 0 <= mainStartingHeight < HeightMod) by (unfold mainStartingHeight, HeightMod; lia).
  assert (HS : 0 <= 17532973286521961314 < W64) by (unfold W64; lia).
  exact (runSeeds_one_sample_per_seed (constGen 0.25%float) (fun _ => 0%nat) mainPools
           mainSeeds mainStartingHeight 17532973286521961314 Hh HS).
Defined.

(** ** Statistics in exact arithmetic *)

Lemma fold_left_Rplus_perm (h : R -> R) (l l' : list R) :
  Permutation l l' -> forall a,
  fold_left (fun s v => (s + h v)%R) l a = fold_left (fun s v => (s + h v)%R) l' a.
Proof.
  induction 1 as [|x l l' _ IH|x y l|l l' l'' _ IH1 _ IH2]; intros a.
  - reflexivity.
  - cbn [fold_left]. apply IH.
  - cbn [fold_left]. f_equal. ring.
  - rewrite IH1. apply IH2.
Qed.

Lemma fold_left_Rplus_repeat (h : R -> R) (c : R) (n : nat) :
  forall a, fold_left (fun s v => (s + h v)%R) (repeat c n) a = (a + INR n * h c)%R.
Proof.
  induction n as [|n IH]; intros a.
  - cbn. ring.
  - cbn [repeat fold_left]. rewrite IH, S_INR. ring.
Qed.

(** X8 *)
(** In exact arithmetic, [StatsSet::printStats] does not depend on the order
    of the samples: the printed mean and error are the same for any
    permutation of the values. *)
Theorem printStatsR_perm (values values' : list R)
  (Hp : Permutation values values') :
  printStatsR values = printStatsR values'.
Proof.
  unfold printStatsR, printStats. cbv zeta.
  rewrite (Permutation_length Hp).
  rewrite (fold_left_Rplus_perm (fun v => v) values values' Hp).
  rewrite (fold_left_Rplus_perm
             (fun v => ((v - fold_left (fun s val => (s + val)%R) values' 0
                             / INR (List.length values'))
                        * (v - fold_left (fun s val => (s + val)%R) values' 0
                             / INR (List.length values')))%R)
             values values' Hp).
  reflexivity.
Qed.

Lemma printStatsR_perm_witness :
  Permutation [1%R; 2%R; 6%R] [6%R; 1%R; 2%R] /\
  printStatsR [1%R; 2%R; 6%R] = printStatsR [6%R; 1%R; 2%R].
Proof.
  assert (Hp : Permutation [1%R; 2%R; 6%R] [6%R; 1%R; 2%R]).
  { apply Permutation_sym. apply (Permutation_cons_app [1%R; 2%R] [] 6%R).
    apply Permutation_refl. }
  split; [exact Hp | exact (printStatsR_perm _ _ Hp)].
Defined.

(** X9 *)
(** In exact arithmetic, [n >= 1] equal samples [c] print as [c +/- 0]. *)
Theorem printStatsR_constant (c : R) (n : nat) (Hn : (1 <= n)%nat) :
  printStatsR (repeat c n) = (c, 0%R).
Proof.
  assert (HN : INR n <> 0%R) by (apply not_0_INR; lia).
  unfold printStatsR, printStats. cbv zeta.
  rewrite repeat_length.
  rewrite (fold_left_Rplus_repeat (fun v => v) c n).
  assert (Hm : ((0 + INR n * c) / INR n)%R = c) by (field; exact HN).
  rewrite Hm.
  rewrite (fold_left_Rplus_repeat (fun v => ((v - c) * (v - c))%R) c n).
  replace ((0 + INR n * ((c - c) * (c - c))) / INR n / INR n)%R with 0%R
    by (field; exact HN).
  rewrite sqrt_0. reflexivity.
Qed.

Lemma printStatsR_constant_witness :
  (1 <= 3)%nat /\ printStatsR (repeat 5%R 3) = (5%R, 0%R).
Proof.
  assert (H : (1 <= 3)%nat) by lia.
  split; [exact H | exact (printStatsR_constant 5%R 3 H)].
Defined.
